(** * Hill-climbing step generator of the AutoML tuner

    A shallow embedding of [supervised/tuner/hill_climbing.py]
    ([HillClimbing.get]) together with the hyper-parameter tables of
    [supervised/algorithms/xgboost.py], and the properties of the step
    generator that the specification states.

    Python objects are modelled as follows.
    - scalar values ([None], [int], [float], [str]) are the type [pyval];
      [==] on them is [py_eq];
    - a configuration is a [dict]: an insertion-ordered association list
      stored in a heap of objects and passed around by reference ([loc]),
      so that in-place updates and copies are told apart;
    - the process-wide generator of [numpy.random] is a field of the
      [world] that every call threads through;
    - raising an exception is the left injection of the result. *)

From Stdlib Require Import ZArith QArith.
From stdpp Require Import base option list strings gmap.

Local Open Scope string_scope.
Local Open Scope Z_scope.
Local Open Scope list_scope.

(** ** Scalar values *)

(** A [float] is represented by the rational number it denotes (every finite
    double is one); [==] only observes that number. *)
Inductive pyval :=
  | PyNone
  | PyInt (z : Z)
  | PyFloat (q : Q)
  | PyStr (s : string).

(** [a == b] on scalars: numbers compare by numeric value across [int] and
    [float], strings by content, [None] equals only itself. *)
Definition py_eq (a b : pyval) : bool :=
  match a, b with
  | PyNone, PyNone => true
  | PyInt x, PyInt y => bool_decide (x = y)
  | PyInt x, PyFloat q => Qeq_bool (inject_Z x) q
  | PyFloat q, PyInt y => Qeq_bool q (inject_Z y)
  | PyFloat p, PyFloat q => Qeq_bool p q
  | PyStr s, PyStr t => bool_decide (s = t)
  | _, _ => false
  end.

(** [v is not None] *)
Definition is_not_None (v : pyval) : bool :=
  match v with PyNone => false | _ => true end.

(** ** Exceptions *)

Inductive pyexn :=
  | ValueError
  | KeyError
  | IndexError
  | AttributeError
  | UnboundLocalError.

#[global] Instance pyexn_eq_dec : EqDecision pyexn.
Proof. solve_decision. Defined.

(** ** Lists *)

(** [l.remove(x)]: drops the first occurrence, [ValueError] when there is
    none. *)
Fixpoint list_remove (x : string) (l : list string) : pyexn + list string :=
  match l with
  | [] => inl ValueError
  | y :: l' =>
      if bool_decide (x = y) then inr l'
      else match list_remove x l' with
           | inl e => inl e
           | inr r => inr (y :: r)
           end
  end.

(** [l[i]] with Python's index rule: a negative index counts from the end,
    an index outside [-len, len) raises [IndexError]. *)
Definition list_getitem (l : list pyval) (i : Z) : pyexn + pyval :=
  let n := Z.of_nat (length l) in
  let j := if bool_decide (i < 0) then n + i else i in
  if bool_decide (0 <= j < n) then
    match l !! Z.to_nat j with
    | Some v => inr v
    | None => inl IndexError
    end
  else inl IndexError.

(** ** Dictionaries *)

(** A [dict] with text keys and scalar values, in insertion order. The keys
    of a dictionary are pairwise distinct ([dict_ok]). *)
Definition pydict := list (string * pyval).

Definition dict_keys (d : pydict) : list string := d.*1.

Definition dict_ok (d : pydict) : Prop := NoDup (dict_keys d).

Fixpoint dict_get (d : pydict) (k : string) : option pyval :=
  match d with
  | [] => None
  | (k', v) :: d' => if bool_decide (k = k') then Some v else dict_get d' k
  end.

(** [d[k] = v]: replaces the value of an existing key in place, appends a
    new key at the end. *)
Fixpoint dict_set (k : string) (v : pyval) (d : pydict) : pydict :=
  match d with
  | [] => [(k, v)]
  | (k', v') :: d' =>
      if bool_decide (k = k') then (k', v) :: d'
      else (k', v') :: dict_set k v d'
  end.

(** ** The registry of algorithms *)

(** Modelled from the spec: [AlgorithmsRegistry] lives in
    [supervised/algorithms/registry.py], which is not part of the sources at
    hand. Per (task, model type) it holds the search space (parameter name to
    ordered sequence of legal values), the required preprocessing directives
    and the "additional" block; these are the arguments of the
    [AlgorithmsRegistry.add] calls of xgboost.py. *)
Record model_info := ModelInfo {
  info_class : string;
  info_params : gmap string (list pyval);
  info_required_preprocessing : list string;
  info_additional : gmap string pyval;
}.

Abbreviation registry_t := (gmap string (gmap string model_info)).

(** ** numpy.random *)

(** The generator behind [np.random] is outside the repository; it is taken
    through its interface: the state that [np.random.seed(s)] installs, and
    the shuffled copy that [np.random.permutation(l)] returns together with
    the advanced state. The result of a permutation is a rearrangement of its
    argument. *)
Class NumpyRandom := {
  rng_state : Type;
  mt19937_seed : Z → rng_state;
  shuffle : rng_state → list string → list string * rng_state;
  shuffle_perm : ∀ g l, (shuffle g l).1 ≡ₚ l;
}.

(** ** The world and the monad of computations *)

Definition loc := nat.

Section Embedding.
Context `{NumpyRandom}.

Record world := World {
  np_random : rng_state;
  heap : gmap loc pydict;
}.

(** A computation runs in a world and yields an exception or a value, and
    the world it leaves behind (effects done before an exception stay). *)
Definition M (A : Type) : Type := world → (pyexn + A) * world.

#[global] Instance M_ret : MRet M := λ A a w, (inr a, w).

#[global] Instance M_bind : MBind M := λ A B f m w,
  match m w with
  | (inl e, w') => (inl e, w')
  | (inr a, w') => f a w'
  end.

Definition raise {A} (e : pyexn) : M A := λ w, (inl e, w).

Definition lift {A} (r : pyexn + A) : M A := λ w, (r, w).

(** [np.random.seed(seed)]: an integer outside [0, 2**32 - 1] is refused
    with [ValueError]; otherwise the process-wide state is overwritten. *)
Definition np_random_seed (seed : Z) : M unit := λ w,
  if bool_decide (0 ≤ seed ≤ 2 ^ 32 - 1) then
    (inr (), World (mt19937_seed seed) (heap w))
  else (inl ValueError, w).

(** [np.random.permutation(l)]: draws from, and advances, the process-wide
    state. *)
Definition np_random_permutation (l : list string) : M (list string) := λ w,
  let '(l', g') := shuffle (np_random w) l in
  (inr l', World g' (heap w)).

(** [list(p.keys())] *)
Definition keys_of (p : loc) : M (list string) := λ w,
  match heap w !! p with
  | Some d => (inr (dict_keys d), w)
  | None => (inl AttributeError, w)
  end.

(** [p[k]] *)
Definition getitem (p : loc) (k : string) : M pyval := λ w,
  match heap w !! p with
  | Some d =>
      match dict_get d k with
      | Some v => (inr v, w)
      | None => (inl KeyError, w)
      end
  | None => (inl AttributeError, w)
  end.

(** [p[k] = v] *)
Definition setitem (p : loc) (k : string) (v : pyval) : M unit := λ w,
  match heap w !! p with
  | Some d => (inr (), World (np_random w) (<[p := dict_set k v d]> (heap w)))
  | None => (inl AttributeError, w)
  end.

(** [copy.deepcopy(p)]: a new object with the same items (the values are
    immutable scalars). *)
Definition deepcopy (p : loc) : M loc := λ w,
  match heap w !! p with
  | Some d =>
      let q := fresh (dom (heap w)) in
      (inr q, World (np_random w) (<[q := d]> (heap w)))
  | None => (inl AttributeError, w)
  end.

End Embedding.

(** ** HillClimbing.get *)

Module HillClimbing.
Section get.
Context `{NumpyRandom}.

(** [AlgorithmsRegistry.registry], a class attribute that [get] only
    reads. *)
Variable registry : registry_t.

(** [AlgorithmsRegistry.registry[ml_task][model_type]]: both lookups raise
    [KeyError] on a missing key; the keys of the registry are texts, so a
    [model_type] that is not a text is missing. *)
Definition registry_getitem (ml_task : string) (model_type : pyval)
    : pyexn + model_info :=
  match registry !! ml_task with
  | None => inl KeyError
  | Some models =>
      match model_type with
      | PyStr name =>
          match models !! name with
          | Some model_info => inr model_info
          | None => inl KeyError
          end
      | _ => inl KeyError
      end
  end.

(** The loop of lines 36-40. Its state is the pair of [key_to_update] and
    [values]: [None] stands for [key_to_update = None] with [values] not
    bound yet (both names are assigned in every iteration that completes,
    and an iteration that raises leaves the function). *)
Fixpoint select_loop (model_params : gmap string (list pyval))
    (permuted_keys : list string) (st : option (string * list pyval))
    : pyexn + option (string * list pyval) :=
  match permuted_keys with
  | [] => inr st
  | key_to_update :: rest =>
      match model_params !! key_to_update with
      | None => inl KeyError
      | Some values =>
          if bool_decide (Z.of_nat (length values) > 1)
          then inr (Some (key_to_update, values))
          else select_loop model_params rest (Some (key_to_update, values))
      end
  end.

(** The loop of lines 43-48, from index [i] on, [rest] being the values
    still to visit and [lr] the current [(left, right)]. *)
Fixpoint scan_loop (params : loc) (key_to_update : string)
    (values : list pyval) (i : Z) (rest : list pyval)
    (lr : pyval * pyval) : M (pyval * pyval) :=
  match rest with
  | [] => mret lr
  | v :: rest' =>
      current ← getitem params key_to_update;
      lr' ← (if py_eq v current then
               right_ ← (if bool_decide (i + 1 < Z.of_nat (length values))
                         then lift (list_getitem values (i + 1))
                         else mret lr.2);
               left_ ← (if bool_decide (i - 1 >= 0)
                        then lift (list_getitem values (i - 1))
                        else mret lr.1);
               mret (left_, right_)
             else mret lr);
      scan_loop params key_to_update values (i + 1) rest' lr'
  end.

(** Lines 50-56, for one side: [None] stays [None], another value is
    written into a deep copy of [params]. *)
Definition updated_copy (params : loc) (key_to_update : string)
    (v : pyval) : M (option loc) :=
  if is_not_None v then
    params_n ← deepcopy params;
    setitem params_n key_to_update v;;
    mret (Some params_n)
  else mret None.

Definition get (params : loc) (ml_task : string) (seed : Z)
    : M (option loc * option loc) :=
  np_random_seed seed;;
  keys ← keys_of params;
  keys ← (if bool_decide ("num_class" ∈ keys)
          then lift (list_remove "num_class" keys) else mret keys);
  keys ← lift (list_remove "model_type" keys);
  keys ← lift (list_remove "seed" keys);
  keys ← lift (list_remove "ml_task" keys);
  model_type ← getitem params "model_type";
  if py_eq model_type (PyStr "Baseline") then mret (None, None) else
  model_info ← lift (registry_getitem ml_task model_type);
  let model_params := info_params model_info in
  permuted_keys ← np_random_permutation keys;
  selected ← lift (select_loop model_params permuted_keys None);
  match selected with
  | None => raise UnboundLocalError
  | Some (key_to_update, values) =>
      '(left_, right_) ← scan_loop params key_to_update values 0 values
                           (PyNone, PyNone);
      params_1 ← updated_copy params key_to_update left_;
      params_2 ← updated_copy params key_to_update right_;
      mret (params_1, params_2)
  end.

End get.
End HillClimbing.

(** ** The parameter tables of xgboost.py *)

Module Xgboost.

Definition algorithm_short_name : string := "Xgboost".

Definition floats (l : list Q) : list pyval := PyFloat <$> l.
Definition ints (l : list Z) : list pyval := PyInt <$> l.
Definition strs (l : list string) : list pyval := PyStr <$> l.

Definition xgb_bin_class_params : gmap string (list pyval) :=
  list_to_map [
    ("booster", strs ["gbtree"; "gblinear"]);
    ("objective", strs ["binary:logistic"]);
    ("eval_metric", strs ["auc"; "logloss"]);
    ("eta", floats [0.0025; 0.005; 0.0075; 0.01; 0.025; 0.05; 0.075; 0.1]%Q);
    ("max_depth", ints [1; 2; 3; 4; 5; 6; 7; 8; 9]);
    ("min_child_weight", ints [1; 2; 3; 4; 5; 6; 7; 8; 9; 10]);
    ("subsample", floats [0.3; 0.4; 0.5; 0.6; 0.7; 0.8; 0.9; 1.0]%Q);
    ("colsample_bytree", floats [0.3; 0.4; 0.5; 0.6; 0.7; 0.8; 0.9; 1.0]%Q)
  ].

Definition xgb_regression_params : gmap string (list pyval) :=
  <["max_depth" := ints [1; 2; 3; 4]]>
    (<["eval_metric" := strs ["rmse"; "rmsle"; "mae"]]>
      (<["objective" := strs ["reg:squarederror"]]>
        (<["booster" := strs ["gbtree"]]> xgb_bin_class_params))).

Definition xgb_multi_class_params : gmap string (list pyval) :=
  <["eval_metric" := strs ["mlogloss"]]>
    (<["objective" := strs ["multi:softprob"]]> xgb_bin_class_params).

Definition additional : gmap string pyval :=
  list_to_map [
    ("one_step", PyInt 50);
    ("train_cant_improve_limit", PyInt 5);
    ("max_steps", PyInt 500);
    ("max_rows_limit", PyNone);
    ("max_cols_limit", PyNone)
  ].

Definition required_preprocessing : list string :=
  ["missing_values_inputation"; "convert_categorical";
   "target_as_integer"; "target_scale"].

End Xgboost.

(** Modelled from the spec: the task identifiers and [AlgorithmsRegistry.add]
    are declared in [supervised/algorithms/registry.py], which is not part of
    the sources at hand. The identifiers are texts (the spec's example uses
    "regression"); [add] files the model information under the task and the
    short name of the algorithm class, for a task the registry knows. *)
Definition BINARY_CLASSIFICATION : string := "binary_classification".
Definition MULTICLASS_CLASSIFICATION : string := "multiclass_classification".
Definition REGRESSION : string := "regression".

Definition AlgorithmsRegistry_empty : registry_t :=
  list_to_map [(BINARY_CLASSIFICATION, ∅); (MULTICLASS_CLASSIFICATION, ∅);
               (REGRESSION, ∅)].

Definition AlgorithmsRegistry_add (task_name short_name : string)
    (model_params : gmap string (list pyval))
    (required_preprocessing : list string) (additional : gmap string pyval)
    (registry : registry_t) : registry_t :=
  alter (insert short_name
           (ModelInfo short_name model_params required_preprocessing additional))
        task_name registry.

(** The registry after xgboost.py has been imported. *)
Definition xgb_registry : registry_t :=
  AlgorithmsRegistry_add REGRESSION Xgboost.algorithm_short_name
    Xgboost.xgb_regression_params Xgboost.required_preprocessing
    Xgboost.additional
  (AlgorithmsRegistry_add MULTICLASS_CLASSIFICATION Xgboost.algorithm_short_name
    Xgboost.xgb_multi_class_params Xgboost.required_preprocessing
    Xgboost.additional
  (AlgorithmsRegistry_add BINARY_CLASSIFICATION Xgboost.algorithm_short_name
    Xgboost.xgb_bin_class_params Xgboost.required_preprocessing
    Xgboost.additional
    AlgorithmsRegistry_empty)).

(** ** A small generator

    An instance of the interface of [numpy.random] on which [get] can be run:
    the state is a counter, a permutation keeps the order at an odd state and
    reverses it at an even one, and advances the counter. *)
Definition toy_shuffle (g : Z) (l : list string) : list string * Z :=
  (if Z.odd g then l else reverse l, g + 1).

Definition toy_shuffle_perm (g : Z) (l : list string) :
    (toy_shuffle g l).1 ≡ₚ l :=
  match Z.odd g as b return (if b then l else reverse l) ≡ₚ l with
  | true => reflexivity l
  | false => reverse_Permutation l
  end.

#[local] Instance ToyRandom : NumpyRandom := {|
  rng_state := Z;
  mt19937_seed s := s;
  shuffle := toy_shuffle;
  shuffle_perm := toy_shuffle_perm;
|}.

(** ** Concrete inputs *)

(** A world whose heap holds the configuration [d] at address 0, with the
    small generator in state [g]. *)
Definition world_of (g : Z) (d : pydict) : world :=
  World (H := ToyRandom) g {[ 0%nat := d ]}.

(** The configuration of the specification's example, on the tables of
    xgboost.py. *)
Definition example_cfg : pydict :=
  [("eta", PyFloat 0.05%Q); ("max_depth", PyInt 4);
   ("model_type", PyStr "Xgboost"); ("seed", PyInt 1);
   ("ml_task", PyStr "regression")].

(** A configuration with no tunable key. *)
Definition no_tunable_cfg : pydict :=
  [("model_type", PyStr "Xgboost"); ("seed", PyInt 1);
   ("ml_task", PyStr "regression")].

(** A configuration whose tunable keys have one registered value each. *)
Definition fixed_cfg : pydict :=
  [("booster", PyStr "gbtree"); ("objective", PyStr "reg:squarederror");
   ("model_type", PyStr "Xgboost"); ("seed", PyInt 1);
   ("ml_task", PyStr "regression")].

(** A configuration whose [max_depth] is none of the registered values. *)
Definition stale_cfg : pydict :=
  [("max_depth", PyInt 7); ("model_type", PyStr "Xgboost");
   ("seed", PyInt 1); ("ml_task", PyStr "regression")].

Definition baseline_cfg : pydict :=
  [("model_type", PyStr "Baseline"); ("seed", PyInt 1);
   ("ml_task", PyStr "regression")].

Definition baseline_without_ml_task : pydict :=
  [("model_type", PyStr "Baseline"); ("seed", PyInt 1)].

(** A registry whose sequences repeat a value: at both ends for [max_depth],
    at neighbouring positions for [min_child_weight]. *)
Definition repeated_ends_values : list pyval := Xgboost.ints [1; 2; 1].

Definition repeating_params : gmap string (list pyval) :=
  list_to_map [
    ("max_depth", repeated_ends_values);
    ("min_child_weight", Xgboost.ints [1; 1; 2])
  ].

Definition repeating_registry : registry_t :=
  AlgorithmsRegistry_add REGRESSION "Custom" repeating_params [] ∅
    AlgorithmsRegistry_empty.

Definition repeated_ends_cfg : pydict :=
  [("max_depth", PyInt 1); ("model_type", PyStr "Custom");
   ("seed", PyInt 1); ("ml_task", PyStr "regression")].

Definition repeated_neighbours_cfg : pydict :=
  [("min_child_weight", PyInt 1); ("model_type", PyStr "Custom");
   ("seed", PyInt 1); ("ml_task", PyStr "regression")].

(** * The vocabulary of the specification *)

(** The reserved keys, and the tunable ones. *)
Definition reserved : list string :=
  ["num_class"; "model_type"; "seed"; "ml_task"].

Definition tunable (k : string) : Prop := k ∉ reserved.

Definition tunable_keys (d : pydict) : list string :=
  filter tunable (dict_keys d).

(** The seeds that [np.random.seed] accepts. *)
Definition valid_seed (seed : Z) : Prop := 0 ≤ seed ≤ 2 ^ 32 - 1.

(** A configuration: a dictionary that contains [model_type], [seed] and
    [ml_task]. *)
Definition configuration (d : pydict) : Prop :=
  dict_ok d ∧ "model_type" ∈ dict_keys d ∧ "seed" ∈ dict_keys d
  ∧ "ml_task" ∈ dict_keys d.

#[global] Instance configuration_dec d : Decision (configuration d).
Proof. unfold configuration, dict_ok. apply _. Defined.

(** [configuration["model_type"] == "Baseline"] *)
Definition is_baseline (d : pydict) : bool :=
  match dict_get d "model_type" with
  | Some model_type => py_eq model_type (PyStr "Baseline")
  | None => false
  end.

(** The search space registered for [(ml_task, configuration["model_type"])]. *)
Definition search_space (registry : registry_t) (ml_task : string)
    (d : pydict) : option (gmap string (list pyval)) :=
  match dict_get d "model_type" with
  | Some (PyStr name) =>
      models ← registry !! ml_task;
      model_info ← models !! name;
      Some (info_params model_info)
  | _ => None
  end.

(** Every tunable key of the configuration is registered in that space. *)
Definition registered (registry : registry_t) (ml_task : string)
    (d : pydict) : Prop :=
  ∃ space, search_space registry ml_task d = Some space
           ∧ ∀ k, k ∈ tunable_keys d → is_Some (space !! k).

(** A well-formed input; nothing is asked of the registry for the baseline
    model, which [get] never looks up. *)
Definition well_formed (registry : registry_t) (ml_task : string)
    (d : pydict) : Prop :=
  configuration d ∧ (is_baseline d = false → registered registry ml_task d).

(** [values[j] == current] *)
Definition matches (values : list pyval) (current : pyval) (j : nat) : Prop :=
  ∃ v, values !! j = Some v ∧ py_eq v current = true.

#[global] Instance matches_dec values current j :
  Decision (matches values current j).
Proof.
  unfold matches. destruct (values !! j) as [v|] eqn:E.
  - destruct (py_eq v current) eqn:E'.
    + left. eauto.
    + right. intros (v' & [= <-] & ?). congruence.
  - right. by intros (v' & [=] & ?).
Defined.

(** A result of [get] built from neighbour [v] (or from no neighbour): what a
    copy of the configuration with [v] at [key] looks like; a neighbour that
    is [None] gives no result. *)
Definition neighbour (d : pydict) (key : string) (v : option pyval)
    : option pydict :=
  match v with
  | Some v => if is_not_None v then Some (dict_set key v d) else None
  | None => None
  end.

Section Vocabulary.
Context `{NumpyRandom}.
Variable registry : registry_t.

(** The key that [get] updates and its registered sequence of values: the
    outcome of the loop of lines 36-40 on the permuted tunable keys. *)
Definition selection (d : pydict) (ml_task : string) (seed : Z)
    : option (string * list pyval) :=
  if is_baseline d then None else
  space ← search_space registry ml_task d;
  match HillClimbing.select_loop space
          (shuffle (mt19937_seed seed) (tunable_keys d)).1 None with
  | inr selected => selected
  | inl _ => None
  end.

(** The object a result refers to, in the heap that the call leaves. *)
Definition read (w : world) (r : option loc) : option pydict :=
  q ← r; Some (default [] (heap w !! q)).

(** What a caller observes of [get(params, ml_task, seed)] run in [w]: the
    exception, or the items of the two results. *)
Definition outcome (w : world) (params : loc) (ml_task : string) (seed : Z)
    : pyexn + option pydict * option pydict :=
  match HillClimbing.get registry params ml_task seed w with
  | (inl e, _) => inl e
  | (inr (params_1, params_2), w') => inr (read w' params_1, read w' params_2)
  end.

Definition returns (w : world) (params : loc) (ml_task : string) (seed : Z)
    (left_ right_ : option pydict) : Prop :=
  outcome w params ml_task seed = inr (left_, right_).

Definition raises (w : world) (params : loc) (ml_task : string) (seed : Z)
    (e : pyexn) : Prop :=
  outcome w params ml_task seed = inl e.

(** The adjacency and boundary laws at a matched index [i] of the sequence of
    the updated key: a result on the right holds the value at [i + 1], a
    result on the left the value at [i - 1]; there is no left result at the
    first position and no right result at the last. *)
Definition adjacency (w : world) (params : loc) (ml_task : string) (seed : Z)
    (key : string) (values : list pyval) (i : nat) : Prop :=
  ∃ left_ right_,
    returns w params ml_task seed left_ right_
    ∧ (∀ params_2, right_ = Some params_2 →
         ∃ v, values !! (i + 1)%nat = Some v ∧ dict_get params_2 key = Some v)
    ∧ (∀ params_1, left_ = Some params_1 →
         ∃ v, (1 ≤ i)%nat ∧ values !! (i - 1)%nat = Some v
              ∧ dict_get params_1 key = Some v)
    ∧ (i = 0%nat → left_ = None)
    ∧ (S i = length values → right_ = None).

(** "The last match wins": both neighbours are those of index [j]. *)
Definition last_match_wins (w : world) (params : loc) (ml_task : string)
    (seed : Z) (d : pydict) (key : string) (values : list pyval) (j : nat)
    : Prop :=
  returns w params ml_task seed
    (neighbour d key
       (if bool_decide (1 ≤ j)%nat then values !! (j - 1)%nat else None))
    (neighbour d key (values !! (j + 1)%nat)).

(** The call leaves the state of the process-wide generator as it found
    it. *)
Definition generator_untouched (w : world) (params : loc) (ml_task : string)
    (seed : Z) : Prop :=
  np_random (HillClimbing.get registry params ml_task seed w).2 = np_random w.

End Vocabulary.

(** [d'] differs from [d] in exactly one key, a tunable one. *)
Definition differs_in_one_tunable_key (d d' : pydict) : Prop :=
  ∃ key v v',
    tunable key ∧ dict_get d key = Some v ∧ dict_get d' key = Some v'
    ∧ py_eq v' v = false
    ∧ ∀ k, k ≠ key → dict_get d' k = dict_get d k.

(** * [get] as a function of the items of the configuration *)

(** What the loop of lines 43-48 computes, as a function of the value that
    [params[key_to_update]] holds. *)
Fixpoint scan_res (current : pyval) (values : list pyval) (i : nat)
    (rest : list pyval) (lr : pyval * pyval) : pyval * pyval :=
  match rest with
  | [] => lr
  | v :: rest' =>
      scan_res current values (S i) rest'
        (if py_eq v current then
           (if bool_decide (1 ≤ i)%nat
            then default PyNone (values !! (i - 1)%nat) else lr.1,
            if bool_decide (i + 1 < length values)%nat
            then default PyNone (values !! (i + 1)%nat) else lr.2)
         else lr)
  end.

(** Lines 22-27 on the list of keys. *)
Definition removed_keys (keys : list string) : pyexn + list string :=
  match (if bool_decide ("num_class" ∈ keys)
         then list_remove "num_class" keys else inr keys) with
  | inl e => inl e
  | inr keys1 =>
      match list_remove "model_type" keys1 with
      | inl e => inl e
      | inr keys2 =>
          match list_remove "seed" keys2 with
          | inl e => inl e
          | inr keys3 => list_remove "ml_task" keys3
          end
      end
  end.

Inductive step :=
  | NoStep
  | Step (key_to_update : string) (left_ right_ : pyval).

Section Functional.
Context `{NumpyRandom}.
Variable registry : registry_t.

(** On a configuration with items [d], everything [get] does before it builds
    its results is a function of [d], [ml_task] and [seed]: [plan] gives the
    exception raised or the step found, and the state in which the generator
    is left. *)
Definition plan (d : pydict) (ml_task : string) (seed : Z)
    : (pyexn + step) * rng_state :=
  let g := mt19937_seed seed in
  match removed_keys (dict_keys d) with
  | inl e => (inl e, g)
  | inr keys =>
      match dict_get d "model_type" with
      | None => (inl KeyError, g)
      | Some model_type =>
          if py_eq model_type (PyStr "Baseline") then (inr NoStep, g) else
          match HillClimbing.registry_getitem registry ml_task model_type with
          | inl e => (inl e, g)
          | inr model_info =>
              let permuted := shuffle g keys in
              match HillClimbing.select_loop (info_params model_info)
                      permuted.1 None with
              | inl e => (inl e, permuted.2)
              | inr None => (inl UnboundLocalError, permuted.2)
              | inr (Some (key, values)) =>
                  match dict_get d key with
                  | None => (inl KeyError, permuted.2)
                  | Some current =>
                      let lr := scan_res current values 0 values
                                  (PyNone, PyNone) in
                      (inr (Step key lr.1 lr.2), permuted.2)
                  end
              end
          end
      end
  end.

(** Lines 50-56 for one side, on the heap. *)
Definition copy_with (d : pydict) (key : string) (v : pyval) (w : world)
    : option loc * world :=
  if is_not_None v then
    (Some (fresh (dom (heap w))),
     World (np_random w)
           (<[fresh (dom (heap w)) := dict_set key v d]> (heap w)))
  else (None, w).

Definition finish (d : pydict) (s : step) (w : world)
    : (option loc * option loc) * world :=
  match s with
  | NoStep => ((None, None), w)
  | Step key left_ right_ =>
      let c1 := copy_with d key left_ w in
      let c2 := copy_with d key right_ c1.2 in
      ((c1.1, c2.1), c2.2)
  end.

End Functional.

(** * Further definitions *)

(** The keys of [l] are registered with at most one value each. *)
Definition all_short (space : gmap string (list pyval)) (l : list string)
    : Prop :=
  ∀ k, k ∈ l → ∃ vs, space !! k = Some vs ∧ (length vs ≤ 1)%nat.

(** No two entries of the sequence are [==]. *)
Fixpoint py_distinct (l : list pyval) : bool :=
  match l with
  | [] => true
  | x :: l' => forallb (λ y, negb (py_eq x y)) l' && py_distinct l'
  end.

(** Every sequence of the registry is non-empty and without repetition. *)
Definition registry_distinct (registry : registry_t) : Prop :=
  map_Forall (λ _ models,
    map_Forall (λ _ model_info,
      map_Forall (λ _ values,
                    (0 < length values)%nat ∧ py_distinct values = true)
        (info_params model_info))
      (models : gmap string model_info)) registry.

#[global] Instance registry_distinct_dec registry :
  Decision (registry_distinct registry).
Proof. unfold registry_distinct. apply _. Defined.

(** ** XgbAlgorithm *)

(** A value of an attribute or of a JSON description: a scalar, or a
    dictionary of scalars (such as [params]). Values are compared by their
    items; that [get_params] hands out the very dictionary object that
    [self.params] refers to is not represented. *)
Inductive pyobj :=
  | Scalar (v : pyval)
  | Dict (d : pydict).

Module XgbAlgorithm.

Definition algorithm_name : string := "Extreme Gradient Boosting".
Definition algorithm_short_name : string := "Xgboost".

(** [d.get(k, dflt)] on a dictionary of scalars. *)
Definition dict_get_default (d : pydict) (k : string) (dflt : pyval) : pyval :=
  default dflt (dict_get d k).

(** Lines 46-61: the parameters handed to the library, as a function of the
    items of [self.params]. *)
Definition learner_params (params : pydict) : pydict :=
  let learner_params :=
    [("tree_method", PyStr "hist");
     ("booster", dict_get_default params "booster" (PyStr "gbtree"));
     ("objective", dict_get_default params "objective" PyNone);
     ("eval_metric", dict_get_default params "eval_metric" PyNone);
     ("eta", dict_get_default params "eta" (PyFloat 0.01%Q));
     ("max_depth", dict_get_default params "max_depth" (PyInt 1));
     ("min_child_weight", dict_get_default params "min_child_weight" (PyInt 1));
     ("subsample", dict_get_default params "subsample" (PyFloat 0.8%Q));
     ("colsample_bytree",
      dict_get_default params "colsample_bytree" (PyFloat 0.8%Q));
     ("silent", dict_get_default params "silent" (PyInt 1));
     ("seed", dict_get_default params "seed" (PyInt 1))] in
  if bool_decide ("num_class" ∈ dict_keys params) then
    dict_set "num_class" (dict_get_default params "num_class" PyNone)
      learner_params
  else learner_params.

(** The attributes that [get_params] and [set_params] read and write, and
    [learner_params], which [__init__] builds. [uid] is set by the base
    class, which is not part of the sources at hand. *)
Record t := Object {
  library_version : pyobj;
  name : pyobj;
  short_name : pyobj;
  uid : pyobj;
  params : pyobj;
  learner : pydict;
}.

(** A JSON description: a dictionary with text keys. *)
Definition json := list (string * pyobj).

(** [json_desc.get(k, dflt)] *)
Fixpoint json_get (json_desc : json) (k : string) (dflt : pyobj) : pyobj :=
  match json_desc with
  | [] => dflt
  | (k', v) :: rest =>
      if bool_decide (k = k') then v else json_get rest k dflt
  end.

(** Lines 103-111. *)
Definition get_params (self : t) : json :=
  [("library_version", library_version self);
   ("algorithm_name", name self);
   ("algorithm_short_name", short_name self);
   ("uid", uid self);
   ("params", params self)].

(** Lines 113-120. *)
Definition set_params (json_desc : json) (self : t) : t :=
  let self1 :=
    Object (json_get json_desc "library_version" (library_version self))
      (name self) (short_name self) (uid self) (params self) (learner self) in
  let self2 :=
    Object (library_version self1)
      (json_get json_desc "algorithm_name" (name self1))
      (short_name self1) (uid self1) (params self1) (learner self1) in
  let self3 :=
    Object (library_version self2) (name self2)
      (json_get json_desc "algorithm_short_name" (short_name self2))
      (uid self2) (params self2) (learner self2) in
  let self4 :=
    Object (library_version self3) (name self3) (short_name self3)
      (json_get json_desc "uid" (uid self3)) (params self3) (learner self3) in
  Object (library_version self4) (name self4) (short_name self4) (uid self4)
    (json_get json_desc "params" (params self4)) (learner self4).

End XgbAlgorithm.

(** The parameter names that [learner_params] takes from [self.params]. *)
Definition learner_keys : list string :=
  ["booster"; "objective"; "eval_metric"; "eta"; "max_depth";
   "min_child_weight"; "subsample"; "colsample_bytree"; "silent"; "seed"].

(** Every parameter of every search space of the registry is one that
    [learner_params] passes on. *)
Definition registry_learner_keys (registry : registry_t) : Prop :=
  map_Forall (λ _ models,
    map_Forall (λ _ model_info,
      map_Forall (λ key _, key ∈ learner_keys)
        (info_params model_info))
      (models : gmap string model_info)) registry.

#[global] Instance registry_learner_keys_dec registry :
  Decision (registry_learner_keys registry).
Proof. unfold registry_learner_keys. apply _. Defined.

(** [well_formed], as a test that can be run. *)
Definition well_formed_b (registry : registry_t) (ml_task : string)
    (d : pydict) : bool :=
  bool_decide (configuration d)
  && match search_space registry ml_task d with
     | Some space =>
         forallb (λ k, bool_decide (is_Some (space !! k))) (tunable_keys d)
     | None => false
     end.

(** A configuration with a fixed parameter, a tunable one and a key that no
    table lists. *)
Definition unlisted_cfg : pydict :=
  [("booster", PyStr "gbtree"); ("max_depth", PyInt 2); ("bogus", PyInt 0);
   ("model_type", PyStr "Xgboost"); ("seed", PyInt 1);
   ("ml_task", PyStr "regression")].

(** A configuration of a model that the registry does not know. *)
Definition unknown_model_cfg : pydict :=
  [("max_depth", PyInt 2); ("model_type", PyStr "Unknown");
   ("seed", PyInt 1); ("ml_task", PyStr "regression")].

(** * Properties *)

(** ** Lists and dictionaries *)

Lemma list_remove_elem (x : string) (l : list string) :
  x ∈ l → ∃ r, list_remove x l = inr r.
Proof.
  induction l as [|y l IH]; [by intros ?%elem_of_nil|].
  intros Hx. simpl. case_bool_decide; [by eauto|].
  destruct IH as [r ->]; [set_solver|]. eauto.
Qed.

Lemma list_remove_not_elem (x : string) (l : list string) :
  x ∉ l → list_remove x l = inl ValueError.
Proof.
  induction l as [|y l IH]; [done|].
  intros Hx. simpl. rewrite bool_decide_eq_false_2; [|set_solver].
  rewrite IH; [done | set_solver].
Qed.

Lemma list_remove_inl (x : string) (l : list string) (e : pyexn) :
  list_remove x l = inl e → e = ValueError ∧ x ∉ l.
Proof.
  induction l as [|y l IH]; simpl.
  - intros [= <-]. split; [done | apply not_elem_of_nil].
  - case_bool_decide; [done|].
    destruct (list_remove x l) eqn:E; [|done].
    intros [= <-]. destruct IH as [-> ?]; [done|]. set_solver.
Qed.

Lemma filter_all {A} (P : A → Prop) `{!∀ x, Decision (P x)} (l : list A) :
  (∀ x, x ∈ l → P x) → filter P l = l.
Proof.
  induction l as [|y l IH]; [done|]. intros Hl.
  rewrite filter_cons_True; [|apply Hl; left].
  f_equal. apply IH. intros x Hx. apply Hl. by right.
Qed.

(** On a list without repetition, removing the first occurrence removes the
    element, and keeps the order of the others. *)
Lemma list_remove_filter (x : string) (l : list string) :
  NoDup l → x ∈ l → list_remove x l = inr (filter (λ y, y ≠ x) l).
Proof.
  induction l as [|y l IH]; [by intros _ ?%elem_of_nil|].
  intros [Hy Hl]%NoDup_cons Hx. simpl. case_bool_decide as Hxy.
  - subst y. rewrite filter_cons_False; [|by intros ?].
    f_equal. symmetry. apply filter_all. by intros z Hz ->.
  - rewrite IH; [|done|set_solver].
    rewrite filter_cons_True; [done | congruence].
Qed.

Lemma list_remove_subseteq (x : string) (l r : list string) :
  list_remove x l = inr r → r ⊆ l.
Proof.
  revert r. induction l as [|y l IH]; [done|].
  intros r. simpl. case_bool_decide.
  - intros [= <-]. set_solver.
  - destruct (list_remove x l) eqn:E; [done|].
    intros [= <-]. specialize (IH _ eq_refl). set_solver.
Qed.

Lemma list_getitem_lookup (l : list pyval) (i : Z) :
  0 ≤ i < Z.of_nat (length l) →
  ∃ v, l !! Z.to_nat i = Some v ∧ list_getitem l i = inr v.
Proof.
  intros Hi. unfold list_getitem. cbv zeta.
  rewrite (bool_decide_eq_false_2 (i < 0)); [|lia].
  rewrite bool_decide_eq_true_2; [|lia].
  destruct (lookup_lt_is_Some_2 l (Z.to_nat i)) as [v Hv]; [lia|].
  exists v. by rewrite Hv.
Qed.

Lemma dict_get_Some_keys (d : pydict) (k : string) (v : pyval) :
  dict_get d k = Some v → k ∈ dict_keys d.
Proof.
  induction d as [|[k' v'] d IH]; [done|]. simpl.
  case_bool_decide; [subst; set_solver|]. intros ?%IH. set_solver.
Qed.

Lemma dict_get_keys (d : pydict) (k : string) :
  k ∈ dict_keys d → is_Some (dict_get d k).
Proof.
  induction d as [|[k' v'] d IH]; [by intros ?%elem_of_nil|]. simpl.
  case_bool_decide; [by eauto|]. intros Hk. apply IH. set_solver.
Qed.

Lemma dict_keys_set (d : pydict) (k : string) (v : pyval) :
  k ∈ dict_keys d → dict_keys (dict_set k v d) = dict_keys d.
Proof.
  induction d as [|[k' v'] d IH]; [by intros ?%elem_of_nil|]. simpl.
  case_bool_decide; [done|]. intros Hk. simpl. f_equal. apply IH. set_solver.
Qed.

Lemma dict_get_set (d : pydict) (k : string) (v : pyval) :
  dict_get (dict_set k v d) k = Some v.
Proof.
  induction d as [|[k' v'] d IH]; simpl.
  - by rewrite bool_decide_eq_true_2.
  - case_bool_decide as E; simpl; rewrite ?E.
    + by rewrite bool_decide_eq_true_2.
    + by rewrite bool_decide_eq_false_2.
Qed.

Lemma dict_get_set_ne (d : pydict) (k k' : string) (v : pyval) :
  k' ≠ k → dict_get (dict_set k v d) k' = dict_get d k'.
Proof.
  intros Hne. induction d as [|[k0 v0] d IH]; simpl.
  - by rewrite bool_decide_eq_false_2.
  - case_bool_decide as E; simpl.
    + subst k0. by rewrite !bool_decide_eq_false_2.
    + case_bool_decide; [done | apply IH].
Qed.


(** ** The scan for the neighbours *)

Lemma scan_res_left current values pre rest l r :
  values = pre ++ rest →
  (∀ j, (length pre ≤ j)%nat → (1 ≤ j)%nat → matches values current j →
        (∀ j', (j < j')%nat → ¬ matches values current j') →
        values !! (j - 1)%nat
        = Some (scan_res current values (length pre) rest (l, r)).1)
  ∧ ((∀ j, (length pre ≤ j)%nat → (1 ≤ j)%nat → ¬ matches values current j) →
     (scan_res current values (length pre) rest (l, r)).1 = l).
Proof.
  revert pre l r. induction rest as [|v rest IH]; intros pre l r Hv.
  - simpl. split; [|done].
    intros j Hj _ (x & Hx%lookup_lt_Some & _) _.
    rewrite Hv, app_nil_r in Hx. lia.
  - assert (values !! length pre = Some v) as Hat.
    { rewrite Hv. by apply list_lookup_middle. }
    assert (values = (pre ++ [v]) ++ rest) as Hv' by by rewrite <-app_assoc.
    assert (S (length pre) = length (pre ++ [v])) as Hlen
      by (rewrite length_app; simpl; lia).
    simpl. rewrite Hlen.
    match goal with |- context [scan_res _ _ _ _ ?p] =>
      destruct p as [l' r'] eqn:Hstep end.
    destruct (IH (pre ++ [v]) l' r' Hv') as [IH1 IH2]. split.
    + intros j Hj Hj1 Hm Hlast.
      destruct (decide (j = length pre)) as [->|Hne].
      * rewrite IH2.
        -- destruct Hm as (x & Hx & Hm). rewrite Hat in Hx.
           injection Hx as <-.
           rewrite Hm, bool_decide_eq_true_2 in Hstep by done.
           destruct (lookup_lt_is_Some_2 values (length pre - 1)) as [y Hy].
           { apply lookup_lt_Some in Hat. lia. }
           rewrite Hy in Hstep. simpl in Hstep. by injection Hstep as <- _.
        -- intros j' Hj' _. apply Hlast. rewrite <-Hlen in Hj'. lia.
      * apply IH1; [rewrite <-Hlen; lia|done..].
    + intros Hnone. rewrite IH2.
      * destruct (py_eq v current) eqn:Hm; [|by injection Hstep as <- _].
        rewrite bool_decide_eq_false_2 in Hstep; [by injection Hstep as <- _|].
        intros Hge. apply (Hnone (length pre)); [lia|done|]. by exists v.
      * intros j Hj. apply Hnone. rewrite <-Hlen in Hj. lia.
Qed.

Lemma scan_res_right current values pre rest l r :
  values = pre ++ rest →
  (∀ j, (length pre ≤ j)%nat → (j + 1 < length values)%nat →
        matches values current j →
        (∀ j', (j < j')%nat → (j' + 1 < length values)%nat →
               ¬ matches values current j') →
        values !! (j + 1)%nat
        = Some (scan_res current values (length pre) rest (l, r)).2)
  ∧ ((∀ j, (length pre ≤ j)%nat → (j + 1 < length values)%nat →
           ¬ matches values current j) →
     (scan_res current values (length pre) rest (l, r)).2 = r).
Proof.
  revert pre l r. induction rest as [|v rest IH]; intros pre l r Hv.
  - simpl. split; [|done].
    intros j Hj Hj1 _ _. rewrite Hv, app_nil_r in Hj1. lia.
  - assert (values !! length pre = Some v) as Hat.
    { rewrite Hv. by apply list_lookup_middle. }
    assert (values = (pre ++ [v]) ++ rest) as Hv' by by rewrite <-app_assoc.
    assert (S (length pre) = length (pre ++ [v])) as Hlen
      by (rewrite length_app; simpl; lia).
    simpl. rewrite Hlen.
    match goal with |- context [scan_res _ _ _ _ ?p] =>
      destruct p as [l' r'] eqn:Hstep end.
    destruct (IH (pre ++ [v]) l' r' Hv') as [IH1 IH2]. split.
    + intros j Hj Hj1 Hm Hlast.
      destruct (decide (j = length pre)) as [->|Hne].
      * rewrite IH2.
        -- destruct Hm as (x & Hx & Hm). rewrite Hat in Hx.
           injection Hx as <-.
           rewrite Hm, (bool_decide_eq_true_2 (_ < _)%nat) in Hstep by done.
           destruct (lookup_lt_is_Some_2 values (length pre + 1)) as [y Hy];
             [done|].
           rewrite Hy in Hstep. simpl in Hstep. by injection Hstep as _ <-.
        -- intros j' Hj'. apply Hlast. rewrite <-Hlen in Hj'. lia.
      * apply IH1; [rewrite <-Hlen; lia|done..].
    + intros Hnone. rewrite IH2.
      * destruct (py_eq v current) eqn:Hm; [|by injection Hstep as _ <-].
        rewrite (bool_decide_eq_false_2 (_ < _)%nat) in Hstep;
          [by injection Hstep as _ <-|].
        intros Hge. apply (Hnone (length pre)); [lia|done|]. by exists v.
      * intros j Hj. apply Hnone. rewrite <-Hlen in Hj. lia.
Qed.

(** A value left by the scan is either the initial one or a neighbour of a
    matching index. *)
Lemma scan_res_origin current values pre rest l r :
  values = pre ++ rest →
  ((scan_res current values (length pre) rest (l, r)).1 = l
   ∨ ∃ j, (1 ≤ j)%nat ∧ matches values current j
          ∧ values !! (j - 1)%nat
            = Some (scan_res current values (length pre) rest (l, r)).1)
  ∧ ((scan_res current values (length pre) rest (l, r)).2 = r
     ∨ ∃ j, matches values current j
            ∧ values !! (j + 1)%nat
              = Some (scan_res current values (length pre) rest (l, r)).2).
Proof.
  revert pre l r. induction rest as [|v rest IH]; intros pre l r Hv.
  - simpl. split; by left.
  - assert (values !! length pre = Some v) as Hat.
    { rewrite Hv. by apply list_lookup_middle. }
    apply lookup_lt_Some in Hat as Hlt.
    assert (values = (pre ++ [v]) ++ rest) as Hv' by by rewrite <-app_assoc.
    assert (S (length pre) = length (pre ++ [v])) as Hlen
      by (rewrite length_app; simpl; lia).
    simpl. rewrite Hlen.
    match goal with |- context [scan_res _ _ _ _ ?p] =>
      destruct p as [l' r'] eqn:Hstep end.
    destruct (IH (pre ++ [v]) l' r' Hv') as [IHl IHr].
    destruct (py_eq v current) eqn:Hm; [|by injection Hstep as <- <-].
    assert (matches values current (length pre)) as Hmatch by by exists v.
    injection Hstep as Hl' Hr'. split.
    + destruct IHl as [->|?]; [|by right]. subst l'.
      case_bool_decide; [|by left]. right. exists (length pre).
      split_and!; [done..|].
      destruct (lookup_lt_is_Some_2 values (length pre - 1)) as [y Hy];
        [lia|]. by rewrite Hy.
    + destruct IHr as [->|?]; [|by right]. subst r'.
      case_bool_decide; [|by left]. right. exists (length pre).
      split; [done|].
      destruct (lookup_lt_is_Some_2 values (length pre + 1)) as [y Hy];
        [lia|]. by rewrite Hy.
Qed.

(** ** Running the steps of [get] *)

Section run.
Context `{NumpyRandom}.
Variable registry : registry_t.

Import HillClimbing.

(* The test [i - 1 >= 0] and the read of [values[i - 1]], at [i] the
   length of [pre]. *)
Local Ltac scan_left_step :=
  match goal with
  | IH : ∀ pre lr, _ → scan_loop _ _ _ _ _ _ _ = _,
    Hlen : Z.of_nat (length ?pre) + 1 = _,
    Hlen' : S (length ?pre) = _ |- context [list_getitem ?values _] =>
      destruct (decide (1 ≤ length pre)%nat);
      [ rewrite (bool_decide_eq_true_2 (_ >= _)) by lia;
        rewrite (bool_decide_eq_true_2 (_ ≤ _)%nat) by done;
        let x := fresh "x" in
        let Hx := fresh "Hx" in
        destruct (list_getitem_lookup values (Z.of_nat (length pre) - 1))
          as (x & Hx & ->); [lia|];
        replace (Z.to_nat _) with (length pre - 1)%nat in Hx by lia;
        rewrite Hx; simpl; rewrite Hlen, Hlen'; by apply IH
      | rewrite (bool_decide_eq_false_2 (_ >= _)) by lia;
        rewrite (bool_decide_eq_false_2 (_ ≤ _)%nat) by done;
        simpl; rewrite Hlen, Hlen'; by apply IH ]
  end.

Lemma scan_loop_run w params d key current values pre rest lr :
  heap w !! params = Some d →
  dict_get d key = Some current →
  values = pre ++ rest →
  scan_loop params key values (Z.of_nat (length pre)) rest lr w
  = (inr (scan_res current values (length pre) rest lr), w).
Proof.
  intros Hd Hk. revert pre lr.
  induction rest as [|v rest IH]; intros pre lr Hv; [done|].
  assert (values !! length pre = Some v) as Hat.
  { rewrite Hv. by apply list_lookup_middle. }
  apply lookup_lt_Some in Hat as Hlt.
  assert (values = (pre ++ [v]) ++ rest) as Hv' by by rewrite <-app_assoc.
  assert (Z.of_nat (length pre) + 1 = Z.of_nat (length (pre ++ [v]))) as Hlen
    by (rewrite length_app; simpl; lia).
  assert (S (length pre) = length (pre ++ [v])) as Hlen'
    by (rewrite length_app; simpl; lia).
  simpl. unfold mbind, M_bind, getitem, mret, M_ret, lift.
  rewrite Hd, Hk.
  destruct (py_eq v current); [|rewrite Hlen, Hlen'; by apply IH].
  destruct (decide (length pre + 1 < length values)%nat) as [Hr|Hr].
  - rewrite (bool_decide_eq_true_2 (_ < _)) by lia.
    rewrite (bool_decide_eq_true_2 (_ < _)%nat) by done.
    destruct (list_getitem_lookup values (Z.of_nat (length pre) + 1))
      as (x & Hx & ->); [lia|].
    replace (Z.to_nat _) with (length pre + 1)%nat in Hx by lia.
    rewrite Hx. simpl. scan_left_step.
  - rewrite (bool_decide_eq_false_2 (_ < _)) by lia.
    rewrite (bool_decide_eq_false_2 (_ < _)%nat) by done.
    scan_left_step.
Qed.

Lemma select_loop_inr space permuted st sel :
  select_loop space permuted st = inr sel →
  sel = st ∨ ∃ key values,
    sel = Some (key, values) ∧ key ∈ permuted ∧ space !! key = Some values.
Proof.
  revert st. induction permuted as [|k permuted IH]; intros st; simpl.
  - intros [= <-]. by left.
  - destruct (space !! k) as [values|] eqn:Hk; [|done].
    case_bool_decide.
    + intros [= <-]. right. exists k, values. split_and!; [done|left|done].
    + intros [->|(key & vs & -> & Hin & Hs)]%IH; right.
      * exists k, values. split_and!; [done|left|done].
      * exists key, vs. split_and!; [done|by right|done].
Qed.

Lemma removed_keys_subseteq keys keys' :
  removed_keys keys = inr keys' → keys' ⊆ keys.
Proof.
  unfold removed_keys. intros Hr.
  repeat case_match; simplify_eq;
    repeat match goal with
           | H : list_remove _ _ = inr _ |- _ =>
               apply list_remove_subseteq in H
           end; set_solver.
Qed.

Lemma copy_with_heap d key v w p :
  is_Some (heap w !! p) →
  heap (copy_with d key v w).2 !! p = heap w !! p.
Proof.
  intros Hp. unfold copy_with. destruct (is_not_None v); [|done]. simpl.
  apply lookup_insert_ne. intros <-.
  apply elem_of_dom in Hp. by apply is_fresh in Hp.
Qed.

Lemma updated_copy_run w params d key v :
  heap w !! params = Some d →
  updated_copy params key v w
  = (inr (copy_with d key v w).1, (copy_with d key v w).2).
Proof.
  intros Hd. unfold updated_copy, copy_with.
  destruct (is_not_None v); [|done].
  unfold mbind, M_bind, deepcopy, setitem, mret, M_ret. rewrite Hd. simpl.
  by rewrite lookup_insert_eq, insert_insert_eq.
Qed.

Lemma get_unfold w params d ml_task seed :
  heap w !! params = Some d →
  get registry params ml_task seed w
  = if bool_decide (0 ≤ seed ≤ 2 ^ 32 - 1) then
      match plan registry d ml_task seed with
      | (inl e, g) => (inl e, World g (heap w))
      | (inr s, g) =>
          (inr (finish d s (World g (heap w))).1,
           (finish d s (World g (heap w))).2)
      end
    else (inl ValueError, w).
Proof.
  intros Hd. unfold get, plan, removed_keys.
  unfold mbind at 1, M_bind at 1, np_random_seed.
  case_bool_decide; [|done].
  unfold mbind at 1, M_bind at 1, keys_of. simpl. rewrite Hd.
  set (w1 := World _ _).
  assert (heap w1 !! params = Some d) as Hd1 by done.
  unfold mbind at 1, M_bind at 1.
  assert (∀ w0, (if bool_decide ("num_class" ∈ dict_keys d)
                 then lift (list_remove "num_class" (dict_keys d))
                 else mret (dict_keys d)) w0
                = (if bool_decide ("num_class" ∈ dict_keys d)
                   then list_remove "num_class" (dict_keys d)
                   else inr (dict_keys d), w0)) as ->
    by (intros; by case_bool_decide).
  destruct (if bool_decide ("num_class" ∈ dict_keys d) then _ else _)
    as [e|keys1] eqn:HK1; [done|].
  unfold mbind at 1, M_bind at 1, lift at 1.
  destruct (list_remove "model_type" keys1) as [e|keys2] eqn:HK2; [done|].
  unfold mbind at 1, M_bind at 1, lift at 1.
  destruct (list_remove "seed" keys2) as [e|keys3] eqn:HK3; [done|].
  unfold mbind at 1, M_bind at 1, lift at 1.
  destruct (list_remove "ml_task" keys3) as [e|keys] eqn:HK4; [done|].
  unfold mbind at 1, M_bind at 1, getitem at 1. rewrite Hd1.
  destruct (dict_get d "model_type") as [model_type|]; [|done].
  destruct (py_eq model_type (PyStr "Baseline")); [done|].
  unfold mbind at 1, M_bind at 1, lift at 1.
  destruct (registry_getitem registry ml_task model_type)
    as [e|model_info]; [done|].
  unfold mbind at 1, M_bind at 1, np_random_permutation. simpl.
  pose proof (shuffle_perm (mt19937_seed seed) keys) as Hperm.
  destruct (shuffle (mt19937_seed seed) keys) as [permuted g'].
  simpl in Hperm |- *.
  set (w2 := World _ _).
  assert (heap w2 !! params = Some d) as Hd2 by done.
  unfold mbind at 1, M_bind at 1, lift at 1.
  destruct (select_loop _ permuted None) as [e|[[key values]|]] eqn:Hsel;
    [done| |done].
  apply select_loop_inr in Hsel as [[=]|(? & ? & [= <- <-] & Hin & Hsp)].
  assert (key ∈ dict_keys d) as [current Hcur]%dict_get_keys.
  { rewrite Hperm in Hin.
    apply list_remove_subseteq in HK2, HK3, HK4.
    assert (keys1 ⊆ dict_keys d).
    { revert HK1. case_bool_decide;
        [by intros ?%list_remove_subseteq|by intros [= <-]]. }
    set_solver. }
  rewrite Hcur.
  unfold mbind at 1, M_bind at 1.
  pose proof (scan_loop_run w2 params d key current values [] values
                (PyNone, PyNone) Hd2 Hcur eq_refl) as Hscan.
  change (Z.of_nat (length [])) with 0 in Hscan.
  change (@length pyval []) with 0%nat in Hscan. rewrite Hscan.
  destruct (scan_res _ _ _ _ _) as [l r]. simpl.
  unfold mbind at 1, M_bind at 1.
  rewrite (updated_copy_run _ _ d) by done.
  unfold mbind at 1, M_bind at 1.
  rewrite (updated_copy_run _ _ d).
  - done.
  - rewrite copy_with_heap; [done | by rewrite Hd2].
Qed.

(** *** What a caller observes *)

Lemma outcome_invalid_seed w params ml_task seed :
  ¬ valid_seed seed → outcome registry w params ml_task seed = inl ValueError.
Proof.
  intros Hs. unfold outcome, get.
  unfold mbind at 1, M_bind at 1, np_random_seed.
  by rewrite bool_decide_eq_false_2.
Qed.

Lemma outcome_unfold w params d ml_task seed :
  heap w !! params = Some d → valid_seed seed →
  outcome registry w params ml_task seed
  = match (plan registry d ml_task seed).1 with
    | inl e => inl e
    | inr NoStep => inr (None, None)
    | inr (Step key left_ right_) =>
        inr (neighbour d key (Some left_), neighbour d key (Some right_))
    end.
Proof.
  intros Hd Hs. unfold outcome. rewrite (get_unfold _ _ d) by done.
  rewrite bool_decide_eq_true_2 by done.
  destruct (plan registry d ml_task seed) as [[e|[|key l r]] g]; [done..|].
  simpl. unfold copy_with.
  destruct (is_not_None l), (is_not_None r); simpl; unfold read; simpl;
    rewrite ?lookup_insert_eq; try done.
  rewrite lookup_insert_ne, lookup_insert_eq; [done|].
  intros Heq.
  apply (is_fresh (dom (<[fresh (dom (heap w)) := dict_set key l d]>
                          (heap w)))).
  rewrite Heq at 1. apply elem_of_dom.
  rewrite lookup_insert_eq. by eexists.
Qed.

Lemma final_state_unfold w params d ml_task seed :
  heap w !! params = Some d → valid_seed seed →
  np_random (get registry params ml_task seed w).2
  = (plan registry d ml_task seed).2.
Proof.
  intros Hd Hs. rewrite (get_unfold _ _ d) by done.
  rewrite bool_decide_eq_true_2 by done.
  destruct (plan registry d ml_task seed) as [[e|[|key l r]] g]; [done..|].
  simpl. unfold copy_with. by destruct (is_not_None l), (is_not_None r).
Qed.

End run.

(** ** Well-formed inputs *)

Lemma tunable_ne (k : string) :
  tunable k ↔ k ≠ "ml_task" ∧ k ≠ "seed" ∧ k ≠ "model_type" ∧ k ≠ "num_class".
Proof. unfold tunable, reserved. set_solver. Qed.

Lemma removed_keys_tunable (d : pydict) :
  configuration d → removed_keys (dict_keys d) = inr (tunable_keys d).
Proof.
  intros (Hnd & Hm & Hs & Ht). unfold removed_keys, tunable_keys, dict_ok in *.
  set (keys := dict_keys d) in *.
  assert ((if bool_decide ("num_class" ∈ keys)
           then list_remove "num_class" keys else inr keys)
          = inr (filter (λ y, y ≠ "num_class") keys)) as ->.
  { case_bool_decide; [by apply list_remove_filter|].
    f_equal. symmetry. apply filter_all. by intros x Hx ->. }
  rewrite (list_remove_filter "model_type");
    [|by apply NoDup_filter|by apply list_elem_of_filter].
  rewrite (list_remove_filter "seed");
    [|by repeat apply NoDup_filter|by rewrite !list_elem_of_filter].
  rewrite (list_remove_filter "ml_task");
    [|by repeat apply NoDup_filter|by rewrite !list_elem_of_filter].
  f_equal. rewrite !list_filter_filter. apply list_filter_iff.
  intros x. rewrite tunable_ne. tauto.
Qed.

Lemma list_remove_inr_elem (x : string) (l r : list string) :
  list_remove x l = inr r → x ∈ l.
Proof.
  intros Hr. destruct (decide (x ∈ l)) as [|Hn]; [done|].
  apply list_remove_not_elem in Hn. congruence.
Qed.

Lemma list_remove_elem_ne (x y : string) (l r : list string) :
  list_remove x l = inr r → y ≠ x → y ∈ l → y ∈ r.
Proof.
  revert r. induction l as [|z l IH]; [done|]. intros r. simpl.
  case_bool_decide as Hxz.
  - intros [= <-] Hne [->|?]%elem_of_cons; [congruence | done].
  - destruct (list_remove x l) as [|r']; [done|].
    intros [= <-] Hne [->|?]%elem_of_cons; [left | right; by apply IH].
Qed.

Lemma removed_keys_inl (keys : list string) (e : pyexn) :
  removed_keys keys = inl e → e = ValueError.
Proof.
  unfold removed_keys. intros Hr.
  repeat case_match; simplify_eq;
    match goal with
    | H : list_remove _ _ = inl _ |- _ => by apply list_remove_inl in H as [? _]
    end.
Qed.

Lemma removed_keys_inr (keys r : list string) :
  removed_keys keys = inr r →
  "model_type" ∈ keys ∧ "seed" ∈ keys ∧ "ml_task" ∈ keys.
Proof.
  unfold removed_keys.
  destruct (if bool_decide _ then _ else _) as [|keys1] eqn:H1; [done|].
  destruct (list_remove "model_type" keys1) as [|keys2] eqn:H2; [done|].
  destruct (list_remove "seed" keys2) as [|keys3] eqn:H3; [done|].
  intros H4.
  assert (keys1 ⊆ keys) as Hsub1.
  { revert H1. case_bool_decide;
      [by intros ?%list_remove_subseteq | by intros [= <-]]. }
  apply list_remove_inr_elem in H2 as Hm, H3 as Hs, H4 as Ht.
  apply list_remove_subseteq in H2, H3. set_solver.
Qed.

(** Without [seed] or without [ml_task] among the keys, lines 26-27 raise. *)
Lemma removed_keys_missing (keys : list string) :
  "seed" ∉ keys ∨ "ml_task" ∉ keys → removed_keys keys = inl ValueError.
Proof.
  intros Hmiss. destruct (removed_keys keys) as [e|r] eqn:Hr.
  - by apply removed_keys_inl in Hr as ->.
  - apply removed_keys_inr in Hr as (_ & ? & ?). by destruct Hmiss.
Qed.

Lemma search_space_getitem registry ml_task d space model_type :
  search_space registry ml_task d = Some space →
  dict_get d "model_type" = Some model_type →
  ∃ model_info,
    HillClimbing.registry_getitem registry ml_task model_type = inr model_info
    ∧ info_params model_info = space.
Proof.
  unfold search_space, HillClimbing.registry_getitem. intros Hsp Hm.
  rewrite Hm in Hsp. destruct model_type as [| | |name]; try done.
  destruct (registry !! ml_task) as [models|]; [|done]. simpl in Hsp.
  destruct (models !! name) as [model_info|]; [|done]. simpl in Hsp.
  exists model_info. split; [done | congruence].
Qed.

Lemma select_loop_registered space permuted st :
  (∀ k, k ∈ permuted → is_Some (space !! k)) →
  ∃ selected, HillClimbing.select_loop space permuted st = inr selected
              ∧ (permuted ≠ [] → is_Some selected).
Proof.
  revert st. induction permuted as [|k permuted IH]; intros st Hreg; simpl.
  - by exists st.
  - destruct (Hreg k) as [values Hk]; [left|]. rewrite Hk.
    case_bool_decide; [by eauto|].
    destruct (IH (Some (k, values))) as (sel & Heq & Hsel).
    { intros k' Hk'. apply Hreg. by right. }
    exists sel. split; [done|]. intros _.
    destruct permuted; [|by apply Hsel].
    simpl in Heq. injection Heq as <-. eauto.
Qed.

(** When no sequence is longer than one value, the loop ends on the last
    permuted key. *)
Lemma select_loop_short space permuted st key values :
  HillClimbing.select_loop space permuted st = inr (Some (key, values)) →
  (∀ k vs, k ∈ permuted → space !! k = Some vs → (length vs ≤ 1)%nat) →
  (∀ k vs, st = Some (k, vs) → (length vs ≤ 1)%nat) →
  (length values ≤ 1)%nat.
Proof.
  revert st. induction permuted as [|k permuted IH]; intros st; simpl.
  - intros [= ->] _ Hst. by eapply Hst.
  - destruct (space !! k) as [vs|] eqn:Hk; [|done]. intros Hsel Hshort Hst.
    assert (length vs ≤ 1)%nat as Hvs by (eapply Hshort; [left|done]).
    rewrite bool_decide_eq_false_2 in Hsel by lia.
    eapply IH; [done| |].
    + intros k' vs' Hk'. apply Hshort. by right.
    + by intros k' vs' [= <- <-].
Qed.

Section Plan.
Context `{NumpyRandom}.
Variable registry : registry_t.

Lemma selection_inv d ml_task seed key values :
  selection registry d ml_task seed = Some (key, values) →
  is_baseline d = false
  ∧ key ∈ tunable_keys d
  ∧ ∃ space, search_space registry ml_task d = Some space
             ∧ space !! key = Some values
             ∧ HillClimbing.select_loop space
                 (shuffle (mt19937_seed seed) (tunable_keys d)).1 None
               = inr (Some (key, values)).
Proof.
  unfold selection. destruct (is_baseline d); [done|].
  destruct (search_space registry ml_task d) as [space|]; [|done]. simpl.
  destruct (HillClimbing.select_loop _ _ _) as [e|sel] eqn:Hsel; [done|].
  intros ->. split; [done|].
  apply select_loop_inr in Hsel as Hin.
  destruct Hin as [[=]|(? & ? & [= <- <-] & Hin & Hsp)].
  rewrite shuffle_perm in Hin. eauto 10.
Qed.

Lemma tunable_keys_get d key :
  key ∈ tunable_keys d → tunable key ∧ is_Some (dict_get d key).
Proof.
  unfold tunable_keys. intros [? ?]%list_elem_of_filter.
  split; [done | by apply dict_get_keys].
Qed.

Lemma plan_baseline d ml_task seed :
  configuration d → is_baseline d = true →
  plan registry d ml_task seed = (inr NoStep, mt19937_seed seed).
Proof.
  intros Hc Hb. unfold plan. rewrite removed_keys_tunable by done.
  unfold is_baseline in Hb.
  destruct (dict_get d "model_type") as [model_type|]; [|done].
  by rewrite Hb.
Qed.

Lemma plan_registered d ml_task seed space :
  configuration d → is_baseline d = false →
  search_space registry ml_task d = Some space →
  plan registry d ml_task seed
  = let permuted := shuffle (mt19937_seed seed) (tunable_keys d) in
    match HillClimbing.select_loop space permuted.1 None with
    | inl e => (inl e, permuted.2)
    | inr None => (inl UnboundLocalError, permuted.2)
    | inr (Some (key, values)) =>
        match dict_get d key with
        | None => (inl KeyError, permuted.2)
        | Some current =>
            let lr := scan_res current values 0 values (PyNone, PyNone) in
            (inr (Step key lr.1 lr.2), permuted.2)
        end
    end.
Proof.
  intros Hc Hb Hsp. unfold plan. rewrite removed_keys_tunable by done.
  unfold is_baseline in Hb.
  destruct (dict_get d "model_type") as [model_type|] eqn:Hm.
  - rewrite Hb.
    destruct (search_space_getitem _ _ _ _ _ Hsp Hm) as (info & -> & ->).
    done.
  - unfold search_space in Hsp. by rewrite Hm in Hsp.
Qed.

Lemma plan_selection d ml_task seed key values current :
  configuration d →
  selection registry d ml_task seed = Some (key, values) →
  dict_get d key = Some current →
  plan registry d ml_task seed
  = (inr (Step key
            (scan_res current values 0 values (PyNone, PyNone)).1
            (scan_res current values 0 values (PyNone, PyNone)).2),
     (shuffle (mt19937_seed seed) (tunable_keys d)).2).
Proof.
  intros Hc (Hb & _ & space & Hsp & _ & Hsel)%selection_inv Hcur.
  rewrite (plan_registered _ _ _ space) by done. simpl.
  by rewrite Hsel, Hcur.
Qed.

(** A well-formed configuration with a tunable key has a selection. *)
Lemma selection_total d ml_task seed :
  well_formed registry ml_task d → is_baseline d = false →
  tunable_keys d ≠ [] →
  ∃ key values current,
    selection registry d ml_task seed = Some (key, values)
    ∧ dict_get d key = Some current.
Proof.
  intros [Hc Hreg] Hb Hne. destruct (Hreg Hb) as (space & Hsp & Hall).
  unfold selection. rewrite Hb, Hsp. simpl.
  pose proof (shuffle_perm (mt19937_seed seed) (tunable_keys d)) as Hperm.
  destruct (select_loop_registered space
              (shuffle (mt19937_seed seed) (tunable_keys d)).1 None)
    as (sel & Hsel & Hsome).
  { intros k Hk. apply Hall. by rewrite <-Hperm. }
  destruct Hsome as [[key values] ->].
  { intros Hnil. rewrite Hnil in Hperm.
    by apply Permutation_nil_l in Hperm. }
  rewrite Hsel.
  apply select_loop_inr in Hsel as [[=]|(? & ? & [= <- <-] & Hin & _)].
  rewrite Hperm in Hin. apply tunable_keys_get in Hin as [_ [current Hcur]].
  eauto.
Qed.

Lemma plan_no_tunable d ml_task seed :
  well_formed registry ml_task d → is_baseline d = false →
  tunable_keys d = [] →
  (plan registry d ml_task seed).1 = inl UnboundLocalError.
Proof.
  intros [Hc Hreg] Hb Hnil. destruct (Hreg Hb) as (space & Hsp & _).
  rewrite (plan_registered _ _ _ space) by done.
  pose proof (shuffle_perm (mt19937_seed seed) (tunable_keys d)) as Hperm.
  rewrite Hnil in Hperm |- *. apply Permutation_nil_r in Hperm.
  simpl. by rewrite Hperm.
Qed.

Lemma plan_step_key d ml_task seed key l r :
  (plan registry d ml_task seed).1 = inr (Step key l r) →
  key ∈ dict_keys d.
Proof.
  unfold plan. intros Hp.
  repeat case_match; simplify_eq/=.
  by eapply dict_get_Some_keys.
Qed.

End Plan.

(** * The claims *)

Section Claims.
Context `{NumpyRandom}.
Variable registry : registry_t.

(** What [get] returns once a key is selected: the copies built from the two
    values that the scan leaves. *)
Lemma returns_selection w params d ml_task seed key values current :
  heap w !! params = Some d → valid_seed seed → configuration d →
  selection registry d ml_task seed = Some (key, values) →
  dict_get d key = Some current →
  returns registry w params ml_task seed
    (neighbour d key
       (Some (scan_res current values 0 values (PyNone, PyNone)).1))
    (neighbour d key
       (Some (scan_res current values 0 values (PyNone, PyNone)).2)).
Proof.
  intros Hd Hs Hc Hsel Hcur. unfold returns.
  rewrite (outcome_unfold _ _ _ d) by done.
  by rewrite (plan_selection _ _ _ _ key values current).
Qed.

Lemma neighbour_None d key : neighbour d key (Some PyNone) = None.
Proof. done. Qed.

Lemma neighbour_Some d key v d' :
  neighbour d key v = Some d' →
  ∃ x, v = Some x ∧ is_not_None x = true ∧ d' = dict_set key x d.
Proof.
  destruct v as [x|]; [|done]. simpl.
  destruct (is_not_None x) eqn:Hx; [|done]. intros [= <-]. eauto.
Qed.

(** C1 (as amended). On a well-formed input for which [get] updates key
    [key], whose current value occurs exactly once, at index [i], in the
    registered sequence of [key]: a right result holds at [key] the value at
    index [i + 1] and a left result the value at index [i - 1]; there is no
    left result when [i] is the first position and no right result when it is
    the last. *)
Theorem adjacency_unique_occurrence w params d ml_task seed key values
    current i :
  heap w !! params = Some d → valid_seed seed →
  well_formed registry ml_task d →
  selection registry d ml_task seed = Some (key, values) →
  dict_get d key = Some current →
  matches values current i →
  (∀ j, matches values current j → j = i) →
  adjacency registry w params ml_task seed key values i.
Proof.
  intros Hd Hs [Hc _] Hsel Hcur Hi Huniq.
  pose proof (returns_selection _ _ _ _ _ _ _ _ Hd Hs Hc Hsel Hcur) as Hret.
  destruct (scan_res_left current values [] values PyNone PyNone eq_refl)
    as [Hl1 Hl2].
  destruct (scan_res_right current values [] values PyNone PyNone eq_refl)
    as [Hr1 Hr2].
  simpl in Hl1, Hl2, Hr1, Hr2.
  set (lr := scan_res current values 0 values (PyNone, PyNone)) in *.
  assert ((1 ≤ i)%nat → values !! (i - 1)%nat = Some lr.1) as Hleft.
  { intros Hge. apply Hl1; [lia|done|done|].
    intros j' Hj' Hm. apply Huniq in Hm. lia. }
  assert (i = 0%nat → lr.1 = PyNone) as Hleft0.
  { intros ->. apply Hl2. intros j _ Hj Hm. apply Huniq in Hm. lia. }
  assert ((i + 1 < length values)%nat → values !! (i + 1)%nat = Some lr.2)
    as Hright.
  { intros Hlt. apply Hr1; [lia|done|done|].
    intros j' Hj' _ Hm. apply Huniq in Hm. lia. }
  assert (S i = length values → lr.2 = PyNone) as Hright0.
  { intros Hlast. apply Hr2. intros j _ Hj Hm. apply Huniq in Hm. lia. }
  eexists _, _. split; [exact Hret|]. split_and!.
  - intros p2 (x & [= <-] & Hx & ->)%neighbour_Some.
    exists lr.2. rewrite dict_get_set. split; [|done].
    destruct (decide (i + 1 < length values)%nat); [by apply Hright|].
    destruct Hi as (? & ?%lookup_lt_Some & _).
    rewrite Hright0 in Hx by lia. done.
  - intros p1 (x & [= <-] & Hx & ->)%neighbour_Some.
    exists lr.1. rewrite dict_get_set.
    destruct (decide (1 ≤ i)%nat); [by auto|].
    rewrite Hleft0 in Hx by lia. done.
  - intros Hi0. by rewrite Hleft0.
  - intros Hlast. by rewrite Hright0.
Qed.

(** Every call on a well-formed input ends in one of three ways. *)
Lemma well_formed_cases d ml_task seed :
  well_formed registry ml_task d →
  is_baseline d = true
  ∨ (is_baseline d = false ∧ tunable_keys d = [])
  ∨ ∃ key values current,
      selection registry d ml_task seed = Some (key, values)
      ∧ dict_get d key = Some current.
Proof.
  intros Hwf. destruct (is_baseline d) eqn:Hb; [by left|]. right.
  destruct (decide (tunable_keys d = [])) as [|Hne]; [by left|]. right.
  by apply selection_total.
Qed.

(** C2 (as amended). On a well-formed input, every result that [get] returns
    has the keys of the input and agrees with it on every key but the
    updated one, which is a tunable key; and it differs from the input in
    exactly that key whenever the current value occurs at most once in the
    registered sequence of the key. *)
Theorem single_key_difference w params d ml_task seed left_ right_ :
  heap w !! params = Some d →
  well_formed registry ml_task d →
  returns registry w params ml_task seed left_ right_ →
  ∀ d', left_ = Some d' ∨ right_ = Some d' →
    ∃ key values current,
      selection registry d ml_task seed = Some (key, values)
      ∧ tunable key
      ∧ dict_get d key = Some current
      ∧ dict_keys d' = dict_keys d
      ∧ (∀ k, k ≠ key → dict_get d' k = dict_get d k)
      ∧ ((∀ i j, matches values current i → matches values current j → i = j)
         → differs_in_one_tunable_key d d').
Proof.
  intros Hd Hwf Hret d' Hd'. unfold returns in Hret.
  destruct (decide (valid_seed seed)) as [Hs|Hs];
    [|by rewrite outcome_invalid_seed in Hret].
  destruct (well_formed_cases d ml_task seed Hwf)
    as [Hb|[[Hb Hnil]|(key & values & current & Hsel & Hcur)]].
  - rewrite (outcome_unfold _ _ _ d), plan_baseline in Hret
      by (done || apply Hwf).
    simpl in Hret. injection Hret as <- <-. by destruct Hd'.
  - by rewrite (outcome_unfold _ _ _ d), plan_no_tunable in Hret.
  - destruct Hwf as [Hc _].
    pose proof (returns_selection _ _ _ _ _ _ _ _ Hd Hs Hc Hsel Hcur)
      as Hret'.
    unfold returns in Hret'. rewrite Hret in Hret'. injection Hret' as -> ->.
    apply selection_inv in Hsel as Hinv.
    destruct Hinv as (_ & [Htun _]%tunable_keys_get & _).
    apply dict_get_Some_keys in Hcur as Hkey.
    destruct (scan_res_origin current values [] values PyNone PyNone eq_refl)
      as [Hl Hr].
    simpl in Hl, Hr.
    set (lr := scan_res current values 0 values (PyNone, PyNone)) in *.
    assert (∃ x, d' = dict_set key x d ∧ is_not_None x = true
                 ∧ ((∀ i j, matches values current i →
                            matches values current j → i = j) →
                    py_eq x current = false)) as (x & -> & Hx & Hdiff).
    { destruct Hd' as [Hd'|Hd'];
        apply (neighbour_Some d key (Some _)) in Hd'
          as (x & [= <-] & Hx & ->).
      - exists lr.1. split_and!; [done..|]. intros Huniq.
        destruct Hl as [Hl|(j & Hj & Hm & Hat)]; [by rewrite Hl in Hx|].
        destruct (py_eq lr.1 current) eqn:Heq; [|done].
        assert (matches values current (j - 1)) as Hm' by by exists lr.1.
        specialize (Huniq _ _ Hm Hm'). lia.
      - exists lr.2. split_and!; [done..|]. intros Huniq.
        destruct Hr as [Hr|(j & Hm & Hat)]; [by rewrite Hr in Hx|].
        destruct (py_eq lr.2 current) eqn:Heq; [|done].
        assert (matches values current (j + 1)) as Hm' by by exists lr.2.
        specialize (Huniq _ _ Hm Hm'). lia. }
    exists key, values, current. split_and!; [done..| | |].
    + by apply dict_keys_set.
    + intros k Hk. by apply dict_get_set_ne.
    + intros Huniq. exists key, current, x. split_and!; [done..| | |].
      * apply dict_get_set.
      * by apply Hdiff.
      * intros k Hk. by apply dict_get_set_ne.
Qed.

(** C3 (the failing case). On a well-formed input whose model is not the
    baseline and that has no tunable key at all, [get] raises
    [UnboundLocalError]: the loop of lines 37-40 does not run, and line 43
    reads [values], which no statement has assigned. *)
Theorem no_tunable_key_raises w params d ml_task seed :
  heap w !! params = Some d → valid_seed seed →
  well_formed registry ml_task d →
  is_baseline d = false → tunable_keys d = [] →
  raises registry w params ml_task seed UnboundLocalError.
Proof.
  intros Hd Hs Hwf Hb Hnil. unfold raises.
  by rewrite (outcome_unfold _ _ _ d), plan_no_tunable.
Qed.

(** X2. With a tunable key (or the baseline model), a well-formed input
    never raises: [get] returns a pair. *)
Lemma well_formed_returns w params d ml_task seed :
  heap w !! params = Some d → valid_seed seed →
  well_formed registry ml_task d →
  is_baseline d = true ∨ tunable_keys d ≠ [] →
  ∃ left_ right_, returns registry w params ml_task seed left_ right_.
Proof.
  intros Hd Hs Hwf Hor. unfold returns.
  destruct (well_formed_cases d ml_task seed Hwf)
    as [Hb|[[Hb Hnil]|(key & values & current & Hsel & Hcur)]].
  - rewrite (outcome_unfold _ _ _ d), plan_baseline by (done || apply Hwf).
    by eexists _, _.
  - destruct Hor; congruence.
  - eexists _, _. apply returns_selection; [done..|apply Hwf|done|done].
Qed.

(** X1. The no-op law: when every tunable key has at most one registered
    value (and there is a tunable key), [get] returns [(None, None)]. *)
Lemma no_op_law w params d ml_task seed space :
  heap w !! params = Some d → valid_seed seed →
  well_formed registry ml_task d →
  is_baseline d = false → tunable_keys d ≠ [] →
  search_space registry ml_task d = Some space →
  (∀ k vs, k ∈ tunable_keys d → space !! k = Some vs → (length vs ≤ 1)%nat) →
  returns registry w params ml_task seed None None.
Proof.
  intros Hd Hs Hwf Hb Hne Hsp Hshort.
  destruct (selection_total registry d ml_task seed Hwf Hb Hne)
    as (key & values & current & Hsel & Hcur).
  pose proof (returns_selection _ _ _ _ _ _ _ _ Hd Hs (proj1 Hwf) Hsel Hcur)
    as Hret.
  apply selection_inv in Hsel as (_ & _ & space' & Hsp' & _ & Hloop).
  assert (space' = space) as -> by congruence.
  assert (length values ≤ 1)%nat as Hlen.
  { eapply select_loop_short; [exact Hloop| |done].
    intros k vs Hk. apply Hshort. by rewrite shuffle_perm in Hk. }
  destruct values as [|v [|??]]; [done| |simpl in Hlen; lia].
  simpl in Hret. by destruct (py_eq v current).
Qed.

(** C4 (as amended). For a configuration that contains the reserved keys
    and whose [model_type] is ["Baseline"], [get] returns [(None, None)], for
    every task, every registry and every seed that [np.random.seed]
    accepts. *)
Theorem baseline_law w params d ml_task seed :
  heap w !! params = Some d → valid_seed seed →
  configuration d →
  dict_get d "model_type" = Some (PyStr "Baseline") →
  returns registry w params ml_task seed None None.
Proof.
  intros Hd Hs Hc Hm. unfold returns.
  rewrite (outcome_unfold _ _ _ d) by done.
  rewrite plan_baseline; [done|done|].
  unfold is_baseline. by rewrite Hm.
Qed.

(** C5 (as amended). When [j] is the last index at which the current value
    occurs in the sequence of the updated key: the left result is built from
    the value before [j] (there is none when [j] is the first position); the
    right result is built from the value after [j] when [j] is not the last
    position, and otherwise from the value after the occurrence that
    precedes [j], so that it is missing only when there is no other
    occurrence. A neighbouring value that is [None] gives no result. *)
Theorem last_occurrence_neighbours w params d ml_task seed key values
    current j :
  heap w !! params = Some d → valid_seed seed →
  well_formed registry ml_task d →
  selection registry d ml_task seed = Some (key, values) →
  dict_get d key = Some current →
  matches values current j →
  (∀ j', (j < j')%nat → ¬ matches values current j') →
  ∃ left_ right_,
    returns registry w params ml_task seed left_ right_
    ∧ left_ = neighbour d key
                (if bool_decide (1 ≤ j)%nat then values !! (j - 1)%nat
                 else None)
    ∧ ((j + 1 < length values)%nat →
       right_ = neighbour d key (values !! (j + 1)%nat))
    ∧ (S j = length values →
       (∀ j0, (j0 < j)%nat → matches values current j0 →
              (∀ j', (j0 < j' < j)%nat → ¬ matches values current j') →
              right_ = neighbour d key (values !! (j0 + 1)%nat))
       ∧ ((∀ j0, (j0 < j)%nat → ¬ matches values current j0) →
          right_ = None)).
Proof.
  intros Hd Hs [Hc _] Hsel Hcur Hj Hlast.
  pose proof (returns_selection _ _ _ _ _ _ _ _ Hd Hs Hc Hsel Hcur) as Hret.
  destruct (scan_res_left current values [] values PyNone PyNone eq_refl)
    as [Hl1 Hl2].
  destruct (scan_res_right current values [] values PyNone PyNone eq_refl)
    as [Hr1 Hr2].
  simpl in Hl1, Hl2, Hr1, Hr2.
  set (lr := scan_res current values 0 values (PyNone, PyNone)) in *.
  eexists _, _. split; [exact Hret|]. split_and!.
  - case_bool_decide as Hge.
    + by rewrite (Hl1 j) by (done || lia).
    + rewrite Hl2; [done|]. intros j' _ Hj'. apply Hlast. lia.
  - intros Hlt. rewrite (Hr1 j); [done|lia|done|done|].
    intros j' Hj' _. by apply Hlast.
  - intros Hend. split.
    + intros j0 Hj0 Hm0 Hbetween.
      rewrite (Hr1 j0); [done|lia|lia|done|].
      intros j' Hj' Hlt'. apply Hbetween. lia.
    + intros Hnone. rewrite Hr2; [done|].
      intros j' _ Hlt'. apply Hnone. lia.
Qed.

(** C6. On a well-formed input for which [get] updates key [key], whose
    current value occurs nowhere in the registered sequence of [key], [get]
    returns [(None, None)] and raises nothing. *)
Theorem value_not_found w params d ml_task seed key values current :
  heap w !! params = Some d → valid_seed seed →
  well_formed registry ml_task d →
  selection registry d ml_task seed = Some (key, values) →
  dict_get d key = Some current →
  (∀ j, ¬ matches values current j) →
  returns registry w params ml_task seed None None.
Proof.
  intros Hd Hs [Hc _] Hsel Hcur Hnone.
  pose proof (returns_selection _ _ _ _ _ _ _ _ Hd Hs Hc Hsel Hcur) as Hret.
  destruct (scan_res_left current values [] values PyNone PyNone eq_refl)
    as [_ Hl].
  destruct (scan_res_right current values [] values PyNone PyNone eq_refl)
    as [_ Hr].
  simpl in Hl, Hr. rewrite Hl, Hr in Hret by (intros; apply Hnone).
  exact Hret.
Qed.

(** C7. What [get] yields is determined by the items of the configuration,
    the task and the seed: two calls on configurations with the same items
    raise the same exception or return results with the same items, whatever
    the state of the generator and of the heap they start from. *)
Theorem determinism w1 w2 params1 params2 d ml_task seed :
  heap w1 !! params1 = Some d → heap w2 !! params2 = Some d →
  outcome registry w1 params1 ml_task seed
  = outcome registry w2 params2 ml_task seed.
Proof.
  intros Hd1 Hd2. destruct (decide (valid_seed seed)) as [Hs|Hs].
  - by rewrite !(outcome_unfold _ _ _ d).
  - by rewrite !outcome_invalid_seed.
Qed.

(** C8 (as amended). A call with an accepted seed overwrites the state of
    the process-wide generator: whatever that state was, the call leaves the
    state that [np.random.seed(seed)] installs when the model is the
    baseline, and that state advanced by the permutation of the tunable keys
    otherwise. *)
Theorem seeding_overwrites_generator w params d ml_task seed :
  heap w !! params = Some d → valid_seed seed →
  well_formed registry ml_task d →
  np_random (HillClimbing.get registry params ml_task seed w).2
  = if is_baseline d then mt19937_seed seed
    else (shuffle (mt19937_seed seed) (tunable_keys d)).2.
Proof.
  intros Hd Hs [Hc Hreg]. rewrite (final_state_unfold _ _ _ d) by done.
  destruct (is_baseline d) eqn:Hb; [by rewrite plan_baseline|].
  destruct (Hreg eq_refl) as (space & Hsp & _).
  rewrite (plan_registered _ _ _ _ space) by done. simpl.
  by repeat case_match.
Qed.

(** The heap after a call: the objects that were there are unchanged, and a
    result is a new object that holds the items of the input with one value
    replaced. *)
Lemma get_frame w params d ml_task seed res w' :
  heap w !! params = Some d →
  HillClimbing.get registry params ml_task seed w = (res, w') →
  (∀ p d0, heap w !! p = Some d0 → heap w' !! p = Some d0)
  ∧ ∀ params_1 params_2, res = inr (params_1, params_2) →
      (∀ q1 q2, params_1 = Some q1 → params_2 = Some q2 → q1 ≠ q2)
      ∧ ∀ q, params_1 = Some q ∨ params_2 = Some q →
          heap w !! q = None
          ∧ ∃ key v, key ∈ dict_keys d
                     ∧ heap w' !! q = Some (dict_set key v d).
Proof.
  intros Hd. rewrite (get_unfold _ _ _ d) by done.
  case_bool_decide; [|intros [= <- <-]; by split].
  destruct (plan registry d ml_task seed) as [[e|[|key l r]] g] eqn:Hplan.
  - intros [= <- <-]. by split.
  - intros [= <- <-]. split; [done|].
    intros ?? [= <- <-]. split; [done|]. by intros q [|].
  - assert (key ∈ dict_keys d) as Hkey.
    { apply (plan_step_key registry d ml_task seed key l r).
      by rewrite Hplan. }
    simpl. unfold copy_with. destruct w as [g0 h]. simpl in Hd |- *.
    set (q1 := fresh (dom h)).
    assert (h !! q1 = None) as Hq1.
    { apply not_elem_of_dom, is_fresh. }
    destruct (is_not_None l), (is_not_None r); simpl; intros [= <- <-]; simpl.
    + set (h1 := <[q1 := dict_set key l d]> h).
      set (q2 := fresh (dom h1)).
      assert (h1 !! q2 = None) as Hq2 by apply not_elem_of_dom, is_fresh.
      assert (q1 ≠ q2) as Hne.
      { intros Heq. rewrite <-Heq in Hq2. unfold h1 in Hq2.
        by rewrite lookup_insert_eq in Hq2. }
      assert (h !! q2 = None) as Hq2'.
      { unfold h1 in Hq2. by rewrite lookup_insert_ne in Hq2. }
      split.
      * intros p d0 Hp. rewrite lookup_insert_ne by congruence.
        unfold h1. by rewrite lookup_insert_ne by congruence.
      * intros ?? [= <- <-]. split; [by intros ?? [= <-] [= <-]|].
        intros q [[= <-]|[= <-]]; (split; [done|]); exists key.
        -- exists l. split; [done|].
           rewrite lookup_insert_ne by congruence.
           unfold h1. by rewrite lookup_insert_eq.
        -- exists r. split; [done|]. by rewrite lookup_insert_eq.
    + split.
      * intros p d0 Hp. rewrite lookup_insert_ne; [done|congruence].
      * intros ?? [= <- <-]. split; [done|].
        intros q [[= <-]|[=]]. split; [done|]. exists key, l.
        split; [done|]. by rewrite lookup_insert_eq.
    + fold q1. split.
      * intros p d0 Hp. rewrite lookup_insert_ne; [done|congruence].
      * intros ?? [= <- <-]. split; [done|].
        intros q [[=]|[= <-]]. split; [done|]. exists key, r.
        split; [done|]. by rewrite lookup_insert_eq.
    + split; [done|]. intros ?? [= <- <-]. split; [done|]. by intros q [|].
Qed.

(** Two calls in a row yield the same. *)
Lemma repeated_call w params d ml_task seed :
  heap w !! params = Some d →
  outcome registry (HillClimbing.get registry params ml_task seed w).2
    params ml_task seed
  = outcome registry w params ml_task seed.
Proof.
  intros Hd.
  destruct (HillClimbing.get registry params ml_task seed w) as [res w']
    eqn:Hget.
  destruct (get_frame _ _ _ _ _ _ _ Hd Hget) as [Hframe _].
  destruct (decide (valid_seed seed)) as [Hs|Hs].
  - simpl. rewrite (outcome_unfold _ w' _ d) by (done || by apply Hframe).
    by rewrite (outcome_unfold _ w _ d).
  - by rewrite !outcome_invalid_seed.
Qed.

(** C10. For a configuration whose [model_type] is ["Baseline"] and that
    lacks [seed] or [ml_task], [get] raises [ValueError] and does not return
    [(None, None)]: the reserved keys are removed from the list of keys
    (lines 25-27) before the model type is looked at (line 30). *)
Theorem baseline_without_reserved_key_raises w params d ml_task seed :
  heap w !! params = Some d → valid_seed seed →
  dict_get d "model_type" = Some (PyStr "Baseline") →
  "seed" ∉ dict_keys d ∨ "ml_task" ∉ dict_keys d →
  raises registry w params ml_task seed ValueError.
Proof.
  intros Hd Hs Hm Hmiss. unfold raises.
  rewrite (outcome_unfold _ _ _ d) by done.
  unfold plan. by rewrite removed_keys_missing.
Qed.

End Claims.

(** * The claims on concrete inputs *)

Lemma well_formed_intro registry ml_task d space :
  configuration d →
  search_space registry ml_task d = Some space →
  Forall (λ k, is_Some (space !! k)) (tunable_keys d) →
  well_formed registry ml_task d.
Proof.
  intros Hc Hsp Hall. split; [done|]. intros _. exists space. split; [done|].
  by apply Forall_forall.
Qed.

Lemma well_formed_b_true registry ml_task d :
  well_formed_b registry ml_task d = true → well_formed registry ml_task d.
Proof.
  unfold well_formed_b. intros [Hc Hs]%andb_true_iff.
  apply bool_decide_eq_true in Hc.
  destruct (search_space registry ml_task d) as [space|] eqn:Hsp; [|done].
  apply (well_formed_intro _ _ _ space); [done..|].
  apply Forall_forall. intros k Hk.
  rewrite forallb_forall in Hs. apply list_elem_of_In in Hk.
  by apply Hs, bool_decide_eq_true in Hk.
Qed.

Ltac check_well_formed := apply well_formed_b_true; by vm_compute.

Lemma example_cfg_well_formed :
  well_formed xgb_registry "regression" example_cfg.
Proof. check_well_formed. Qed.

Lemma no_tunable_cfg_well_formed :
  well_formed xgb_registry "regression" no_tunable_cfg.
Proof. check_well_formed. Qed.

Lemma stale_cfg_well_formed :
  well_formed xgb_registry "regression" stale_cfg.
Proof. check_well_formed. Qed.

Lemma repeated_ends_cfg_well_formed :
  well_formed repeating_registry "regression" repeated_ends_cfg.
Proof. check_well_formed. Qed.

Lemma repeated_neighbours_cfg_well_formed :
  well_formed repeating_registry "regression" repeated_neighbours_cfg.
Proof. check_well_formed. Qed.

Lemma matches_lt values current j :
  matches values current j → (j < length values)%nat.
Proof. intros (v & Hv & _). by eapply lookup_lt_Some. Qed.

(** A property of all matching indices, checked along the sequence. *)
Lemma matches_all (P : nat → Prop) values current :
  Forall (λ j, matches values current j → P j) (seq 0 (length values)) →
  ∀ j, matches values current j → P j.
Proof.
  intros Hall j Hj. apply matches_lt in Hj as Hlt.
  rewrite Forall_forall in Hall. apply Hall; [|done].
  apply elem_of_seq. lia.
Qed.

Ltac check_matches P :=
  apply (matches_all P); by apply (bool_decide_unpack _); vm_compute.

Lemma py_eq_refl v : py_eq v v = true.
Proof.
  destruct v; simpl; try done; try by apply bool_decide_eq_true_2.
  apply Qeq_bool_iff. reflexivity.
Qed.

Lemma differs_irrefl d : ¬ differs_in_one_tunable_key d d.
Proof.
  intros (key & v & v' & _ & Hv & Hv' & Hne & _).
  rewrite Hv in Hv'. injection Hv' as <-. by rewrite py_eq_refl in Hne.
Qed.

(** C1, on the example of the specification: [eta] is 0.05, at index 5 of its
    sequence; the results hold 0.025 and 0.075. *)
Lemma adjacency_unique_occurrence_witness :
  adjacency xgb_registry (world_of 42 example_cfg) 0%nat "regression" 7 "eta"
    (Xgboost.floats
       [0.0025; 0.005; 0.0075; 0.01; 0.025; 0.05; 0.075; 0.1]%Q) 5.
Proof.
  apply (adjacency_unique_occurrence xgb_registry (world_of 42 example_cfg)
           0%nat example_cfg "regression" 7 "eta" _ (PyFloat 0.05%Q) 5).
  - reflexivity.
  - unfold valid_seed. lia.
  - exact example_cfg_well_formed.
  - vm_compute. reflexivity.
  - reflexivity.
  - exists (PyFloat 0.05%Q). split; reflexivity.
  - check_matches (λ j : nat, j = 5%nat).
Defined.

(** C1 as stated fails when the current value occurs at both ends of the
    sequence [1, 2, 1]: whichever occurrence is taken as the matched index,
    one of the boundary laws is broken, since both results exist. *)
Lemma adjacency_counterexample :
  well_formed repeating_registry "regression" repeated_ends_cfg
  ∧ selection repeating_registry repeated_ends_cfg "regression" 1
    = Some ("max_depth", repeated_ends_values)
  ∧ dict_get repeated_ends_cfg "max_depth" = Some (PyInt 1)
  ∧ matches repeated_ends_values (PyInt 1) 0
  ∧ matches repeated_ends_values (PyInt 1) 2
  ∧ ∀ i, matches repeated_ends_values (PyInt 1) i →
      ¬ adjacency repeating_registry (world_of 42 repeated_ends_cfg) 0%nat
          "regression" 1 "max_depth" repeated_ends_values i.
Proof.
  split_and!.
  - exact repeated_ends_cfg_well_formed.
  - vm_compute. reflexivity.
  - reflexivity.
  - exists (PyInt 1). split; reflexivity.
  - exists (PyInt 1). split; reflexivity.
  - intros i Hi (l & r & Hret & _ & _ & Hfirst & Hlast).
    assert (i = 0 ∨ i = 2)%nat as Hcases.
    { clear Hfirst Hlast. revert i Hi.
      check_matches (λ i : nat, i = 0 ∨ i = 2)%nat. }
    unfold returns in Hret. vm_compute in Hret. injection Hret as <- <-.
    destruct Hcases as [->| ->].
    + by specialize (Hfirst eq_refl).
    + by specialize (Hlast eq_refl).
Qed.

(** C2, on the example of the specification: the left result differs from the
    input in [eta] only. *)
Lemma single_key_difference_witness :
  ∃ key values current,
    selection xgb_registry example_cfg "regression" 7 = Some (key, values)
    ∧ tunable key
    ∧ dict_get example_cfg key = Some current
    ∧ dict_keys (dict_set "eta" (PyFloat 0.025%Q) example_cfg)
      = dict_keys example_cfg
    ∧ (∀ k, k ≠ key →
         dict_get (dict_set "eta" (PyFloat 0.025%Q) example_cfg) k
         = dict_get example_cfg k)
    ∧ ((∀ i j, matches values current i → matches values current j → i = j)
       → differs_in_one_tunable_key example_cfg
           (dict_set "eta" (PyFloat 0.025%Q) example_cfg)).
Proof.
  apply (single_key_difference xgb_registry (world_of 42 example_cfg) 0%nat
           example_cfg "regression" 7
           (Some (dict_set "eta" (PyFloat 0.025%Q) example_cfg))
           (Some (dict_set "eta" (PyFloat 0.075%Q) example_cfg))).
  - reflexivity.
  - exact example_cfg_well_formed.
  - vm_compute. reflexivity.
  - left. reflexivity.
Defined.

(** C2 as stated fails when the current value is repeated at neighbouring
    positions, as in [1, 1, 2]: the left result holds the value at index 0,
    which is the current value, so it differs from the input in no key. *)
Lemma single_key_difference_counterexample :
  well_formed repeating_registry "regression" repeated_neighbours_cfg
  ∧ returns repeating_registry (world_of 42 repeated_neighbours_cfg) 0%nat
      "regression" 1
      (Some repeated_neighbours_cfg)
      (Some (dict_set "min_child_weight" (PyInt 2) repeated_neighbours_cfg))
  ∧ ¬ differs_in_one_tunable_key repeated_neighbours_cfg
        repeated_neighbours_cfg.
Proof.
  split_and!.
  - exact repeated_neighbours_cfg_well_formed.
  - vm_compute. reflexivity.
  - apply differs_irrefl.
Qed.

(** C3, on the tables of xgboost.py: a configuration with the reserved keys
    only. *)
Lemma no_tunable_key_raises_witness :
  raises xgb_registry (world_of 42 no_tunable_cfg) 0%nat "regression" 1
    UnboundLocalError.
Proof.
  apply (no_tunable_key_raises xgb_registry (world_of 42 no_tunable_cfg)
           0%nat no_tunable_cfg "regression" 1).
  - reflexivity.
  - unfold valid_seed. lia.
  - exact no_tunable_cfg_well_formed.
  - reflexivity.
  - reflexivity.
Defined.

(** C4, on a baseline configuration. *)
Lemma baseline_law_witness :
  returns xgb_registry (world_of 42 baseline_cfg) 0%nat "regression" 1
    None None.
Proof.
  apply (baseline_law xgb_registry (world_of 42 baseline_cfg) 0%nat
           baseline_cfg "regression" 1).
  - reflexivity.
  - unfold valid_seed. lia.
  - by apply (bool_decide_unpack _); vm_compute.
  - reflexivity.
Defined.

(** C4 as stated, for every seed, fails for a seed that [np.random.seed]
    refuses: with seed -1, or 2**32, line 21 raises [ValueError] before the
    model type is looked at, and nothing is returned. *)
Lemma baseline_any_seed_counterexample :
  configuration baseline_cfg
  ∧ dict_get baseline_cfg "model_type" = Some (PyStr "Baseline")
  ∧ raises xgb_registry (world_of 42 baseline_cfg) 0%nat "regression" (-1)
      ValueError
  ∧ raises xgb_registry (world_of 42 baseline_cfg) 0%nat "regression"
      (2 ^ 32) ValueError
  ∧ ¬ returns xgb_registry (world_of 42 baseline_cfg) 0%nat "regression"
        (-1) None None.
Proof.
  split_and!.
  - by apply (bool_decide_unpack _); vm_compute.
  - reflexivity.
  - by apply outcome_invalid_seed; unfold valid_seed; lia.
  - by apply outcome_invalid_seed; unfold valid_seed; lia.
  - unfold returns. rewrite outcome_invalid_seed; [done|].
    unfold valid_seed. lia.
Qed.

(** C5, on the sequence [1, 2, 1] with current value 1: the last occurrence
    is at index 2, the last position; the left result holds the value at
    index 1, and so does the right one, which comes from the occurrence at
    index 0. *)
Lemma last_occurrence_neighbours_witness :
  ∃ left_ right_,
    returns repeating_registry (world_of 42 repeated_ends_cfg) 0%nat
      "regression" 1 left_ right_
    ∧ left_ = neighbour repeated_ends_cfg "max_depth"
                (if bool_decide (1 ≤ 2)%nat
                 then repeated_ends_values !! (2 - 1)%nat else None)
    ∧ ((2 + 1 < length repeated_ends_values)%nat →
       right_ = neighbour repeated_ends_cfg "max_depth"
                  (repeated_ends_values !! (2 + 1)%nat))
    ∧ (3%nat = length repeated_ends_values →
       (∀ j0, (j0 < 2)%nat → matches repeated_ends_values (PyInt 1) j0 →
              (∀ j', (j0 < j' < 2)%nat →
                     ¬ matches repeated_ends_values (PyInt 1) j') →
              right_ = neighbour repeated_ends_cfg "max_depth"
                         (repeated_ends_values !! (j0 + 1)%nat))
       ∧ ((∀ j0, (j0 < 2)%nat →
                 ¬ matches repeated_ends_values (PyInt 1) j0) →
          right_ = None)).
Proof.
  apply (last_occurrence_neighbours repeating_registry
           (world_of 42 repeated_ends_cfg) 0%nat repeated_ends_cfg
           "regression" 1 "max_depth" repeated_ends_values (PyInt 1) 2).
  - reflexivity.
  - unfold valid_seed. lia.
  - exact repeated_ends_cfg_well_formed.
  - vm_compute. reflexivity.
  - reflexivity.
  - exists (PyInt 1). split; reflexivity.
  - intros j' Hlt Hm. revert j' Hm Hlt.
    check_matches (λ j' : nat, ¬ (2 < j')%nat).
Defined.

(** C5 as stated fails on that input: index 2 is the last occurrence and the
    last position, so "the last match wins" leaves no right result, but [get]
    returns one. *)
Lemma last_match_wins_counterexample :
  well_formed repeating_registry "regression" repeated_ends_cfg
  ∧ selection repeating_registry repeated_ends_cfg "regression" 1
    = Some ("max_depth", repeated_ends_values)
  ∧ dict_get repeated_ends_cfg "max_depth" = Some (PyInt 1)
  ∧ matches repeated_ends_values (PyInt 1) 0
  ∧ matches repeated_ends_values (PyInt 1) 2
  ∧ (∀ j', (2 < j')%nat → ¬ matches repeated_ends_values (PyInt 1) j')
  ∧ ¬ last_match_wins repeating_registry (world_of 42 repeated_ends_cfg)
        0%nat "regression" 1 repeated_ends_cfg "max_depth"
        repeated_ends_values 2.
Proof.
  split_and!.
  - exact repeated_ends_cfg_well_formed.
  - vm_compute. reflexivity.
  - reflexivity.
  - exists (PyInt 1). split; reflexivity.
  - exists (PyInt 1). split; reflexivity.
  - intros j' Hlt Hm. revert j' Hm Hlt.
    check_matches (λ j' : nat, ¬ (2 < j')%nat).
  - unfold last_match_wins, returns. vm_compute. discriminate.
Qed.

(** C6, on a configuration whose [max_depth] is 7, which the regression
    table does not list. *)
Lemma value_not_found_witness :
  returns xgb_registry (world_of 42 stale_cfg) 0%nat "regression" 1
    None None.
Proof.
  apply (value_not_found xgb_registry (world_of 42 stale_cfg) 0%nat stale_cfg
           "regression" 1 "max_depth" (Xgboost.ints [1; 2; 3; 4]) (PyInt 7)).
  - reflexivity.
  - unfold valid_seed. lia.
  - exact stale_cfg_well_formed.
  - vm_compute. reflexivity.
  - reflexivity.
  - intros j Hm. revert j Hm. check_matches (λ _ : nat, False).
Defined.

(** C7, on the example of the specification, held at two addresses of two
    heaps, with the generator in two states. *)
Lemma determinism_witness :
  outcome xgb_registry (world_of 42 example_cfg) 0%nat "regression" 7
  = outcome xgb_registry
      (World (H := ToyRandom) 5
             {[ 3%nat := example_cfg; 0%nat := baseline_cfg ]})
      3%nat "regression" 7.
Proof.
  apply (determinism xgb_registry (world_of 42 example_cfg)
           (World (H := ToyRandom) 5
                  {[ 3%nat := example_cfg; 0%nat := baseline_cfg ]})
           0%nat 3%nat example_cfg "regression" 7).
  - reflexivity.
  - vm_compute. reflexivity.
Defined.

(** C8, on the example of the specification: seed 7 and one permutation. *)
Lemma seeding_overwrites_generator_witness :
  np_random
    (HillClimbing.get xgb_registry 0%nat "regression" 7
       (world_of 42 example_cfg)).2
  = (shuffle (mt19937_seed 7) (tunable_keys example_cfg)).2.
Proof.
  apply (seeding_overwrites_generator xgb_registry (world_of 42 example_cfg)
           0%nat example_cfg "regression" 7).
  - reflexivity.
  - unfold valid_seed. lia.
  - exact example_cfg_well_formed.
Defined.

(** C8 as stated fails: the call on the example leaves the generator in
    another state (8) than the one it found (42). *)
Lemma generator_untouched_counterexample :
  ¬ generator_untouched xgb_registry (world_of 42 example_cfg) 0%nat
      "regression" 7.
Proof. unfold generator_untouched. vm_compute. discriminate. Qed.

(** C10, on a baseline configuration without [ml_task]. *)
Lemma baseline_without_reserved_key_raises_witness :
  raises xgb_registry (world_of 42 baseline_without_ml_task) 0%nat
    "regression" 1 ValueError.
Proof.
  apply (baseline_without_reserved_key_raises xgb_registry
           (world_of 42 baseline_without_ml_task) 0%nat
           baseline_without_ml_task "regression" 1).
  - reflexivity.
  - unfold valid_seed. lia.
  - reflexivity.
  - right. by apply (bool_decide_unpack _); vm_compute.
Defined.

Lemma fixed_cfg_well_formed :
  well_formed xgb_registry "regression" fixed_cfg.
Proof. check_well_formed. Qed.

(** X1, on a configuration of two parameters that the regression table
    fixes. *)
Lemma no_op_law_witness :
  returns xgb_registry (world_of 42 fixed_cfg) 0%nat "regression" 1
    None None.
Proof.
  apply (no_op_law xgb_registry (world_of 42 fixed_cfg) 0%nat fixed_cfg
           "regression" 1 Xgboost.xgb_regression_params).
  - reflexivity.
  - unfold valid_seed. lia.
  - exact fixed_cfg_well_formed.
  - reflexivity.
  - discriminate.
  - vm_compute. reflexivity.
  - intros k vs Hk Hvs.
    change (tunable_keys fixed_cfg) with ["booster"; "objective"] in Hk.
    apply elem_of_cons in Hk as [->|Hk];
      [|apply elem_of_cons in Hk as [->|Hk]; [|by apply elem_of_nil in Hk]];
      vm_compute in Hvs; injection Hvs as <-; simpl; lia.
Defined.

(** X2, on the example of the specification. *)
Lemma well_formed_returns_witness :
  ∃ left_ right_,
    returns xgb_registry (world_of 42 example_cfg) 0%nat "regression" 7
      left_ right_.
Proof.
  apply (well_formed_returns xgb_registry (world_of 42 example_cfg) 0%nat
           example_cfg "regression" 7).
  - reflexivity.
  - unfold valid_seed. lia.
  - exact example_cfg_well_formed.
  - right. discriminate.
Defined.

(** * Further properties *)

(** ** More on the selection loop *)

Lemma select_loop_first_long space pre key post values st :
  all_short space pre →
  space !! key = Some values → (1 < length values)%nat →
  HillClimbing.select_loop space (pre ++ key :: post) st
  = inr (Some (key, values)).
Proof.
  revert st. induction pre as [|k pre IH]; intros st Hshort Hkey Hlen; simpl.
  - rewrite Hkey. by rewrite bool_decide_eq_true_2 by lia.
  - destruct (Hshort k) as (vs & -> & Hvs); [left|].
    rewrite bool_decide_eq_false_2 by lia.
    apply IH; [|done..]. intros k' Hk'. apply Hshort. by right.
Qed.

Lemma select_loop_unregistered space pre key post st :
  all_short space pre → space !! key = None →
  HillClimbing.select_loop space (pre ++ key :: post) st = inl KeyError.
Proof.
  revert st. induction pre as [|k pre IH]; intros st Hshort Hkey; simpl.
  - by rewrite Hkey.
  - destruct (Hshort k) as (vs & -> & Hvs); [left|].
    rewrite bool_decide_eq_false_2 by lia.
    apply IH; [|done]. intros k' Hk'. apply Hshort. by right.
Qed.

Lemma search_space_None registry ml_task d model_type :
  search_space registry ml_task d = None →
  dict_get d "model_type" = Some model_type →
  HillClimbing.registry_getitem registry ml_task model_type = inl KeyError.
Proof.
  unfold search_space, HillClimbing.registry_getitem. intros Hsp Hm.
  rewrite Hm in Hsp. destruct (registry !! ml_task) as [models|]; [|done].
  destruct model_type as [| | |name]; try done. simpl in Hsp.
  by destruct (models !! name).
Qed.

Section More.
Context `{NumpyRandom}.
Variable registry : registry_t.

(** The values that the scan leaves are [None] or entries of the sequence. *)
Lemma scan_res_elem current values :
  let lr := scan_res current values 0 values (PyNone, PyNone) in
  (lr.1 = PyNone ∨ lr.1 ∈ values) ∧ (lr.2 = PyNone ∨ lr.2 ∈ values).
Proof.
  destruct (scan_res_origin current values [] values PyNone PyNone eq_refl)
    as [Hl Hr].
  simpl in *. split.
  - destruct Hl as [|(j & _ & _ & Hj)]; [by left|right].
    by eapply list_elem_of_lookup_2.
  - destruct Hr as [|(j & _ & Hj)]; [by left|right].
    by eapply list_elem_of_lookup_2.
Qed.

Lemma selection_first_long d ml_task seed space pre key post values :
  is_baseline d = false →
  search_space registry ml_task d = Some space →
  (shuffle (mt19937_seed seed) (tunable_keys d)).1 = pre ++ key :: post →
  all_short space pre →
  space !! key = Some values → (1 < length values)%nat →
  selection registry d ml_task seed = Some (key, values).
Proof.
  intros Hb Hsp Hperm Hshort Hkey Hlen. unfold selection.
  rewrite Hb, Hsp. simpl. rewrite Hperm.
  by rewrite (select_loop_first_long _ _ _ _ values).
Qed.

(** X3. [get] updates the first key of the permutation that has more than one
    registered value: when the keys before it have at most one value each,
    the call returns, and every result is the input with a registered value
    of that key written at that key. The keys after it are not looked up, and
    need not be registered. *)
Theorem first_long_key_is_updated w params d ml_task seed space pre key post
    values :
  heap w !! params = Some d → valid_seed seed → configuration d →
  is_baseline d = false →
  search_space registry ml_task d = Some space →
  (shuffle (mt19937_seed seed) (tunable_keys d)).1 = pre ++ key :: post →
  all_short space pre →
  space !! key = Some values → (1 < length values)%nat →
  ∃ left_ right_,
    returns registry w params ml_task seed left_ right_
    ∧ ∀ d', left_ = Some d' ∨ right_ = Some d' →
        ∃ v, v ∈ values ∧ d' = dict_set key v d.
Proof.
  intros Hd Hs Hc Hb Hsp Hperm Hshort Hkey Hlen.
  pose proof (selection_first_long d ml_task seed space pre key post values
                Hb Hsp Hperm Hshort Hkey Hlen) as Hsel.
  apply selection_inv in Hsel as Hinv.
  destruct Hinv as (_ & [_ [current Hcur]]%tunable_keys_get & _).
  eexists _, _. split; [by eapply returns_selection|].
  destruct (scan_res_elem current values) as [Hl Hr]. simpl in Hl, Hr.
  intros d' [Hd'|Hd'];
    apply (neighbour_Some d key (Some _)) in Hd' as (x & [= <-] & Hx & ->).
  - destruct Hl as [Hl|Hl]; [by rewrite Hl in Hx | eauto].
  - destruct Hr as [Hr|Hr]; [by rewrite Hr in Hx | eauto].
Qed.

(** X4. When the first key of the permutation that is not registered with at
    most one value is not registered at all, line 38 raises [KeyError]. *)
Theorem unregistered_key_raises w params d ml_task seed space pre key post :
  heap w !! params = Some d → valid_seed seed → configuration d →
  is_baseline d = false →
  search_space registry ml_task d = Some space →
  (shuffle (mt19937_seed seed) (tunable_keys d)).1 = pre ++ key :: post →
  all_short space pre →
  space !! key = None →
  raises registry w params ml_task seed KeyError.
Proof.
  intros Hd Hs Hc Hb Hsp Hperm Hshort Hkey. unfold raises.
  rewrite (outcome_unfold _ _ _ d) by done.
  rewrite (plan_registered _ _ _ _ space) by done. simpl.
  by rewrite Hperm, select_loop_unregistered.
Qed.

(** X5. For a model other than the baseline for which the registry has no
    entry under [ml_task], the lookup of line 32 raises [KeyError]. *)
Theorem unregistered_model_raises w params d ml_task seed :
  heap w !! params = Some d → valid_seed seed → configuration d →
  is_baseline d = false →
  search_space registry ml_task d = None →
  raises registry w params ml_task seed KeyError.
Proof.
  intros Hd Hs Hc Hb Hsp. unfold raises.
  rewrite (outcome_unfold _ _ _ d) by done.
  unfold plan. rewrite removed_keys_tunable by done.
  destruct Hc as (_ & [model_type Hm]%dict_get_keys & _).
  unfold is_baseline in Hb. rewrite Hm in Hb |- *. rewrite Hb.
  by rewrite (search_space_None _ _ d).
Qed.

(** X6. When the current value of the updated key occurs exactly once, at
    index [i], [get] returns exactly the two neighbours: the left result is
    the input with the value at [i - 1] (none when [i] is 0), the right
    result the input with the value at [i + 1] (none when [i] is the last
    index); a result is missing otherwise only when the neighbouring value
    is [None]. *)
Theorem neighbours_exact w params d ml_task seed key values current i :
  heap w !! params = Some d → valid_seed seed →
  well_formed registry ml_task d →
  selection registry d ml_task seed = Some (key, values) →
  dict_get d key = Some current →
  matches values current i →
  (∀ j, matches values current j → j = i) →
  returns registry w params ml_task seed
    (neighbour d key
       (if bool_decide (1 ≤ i)%nat then values !! (i - 1)%nat else None))
    (neighbour d key (values !! (i + 1)%nat)).
Proof.
  intros Hd Hs [Hc _] Hsel Hcur Hi Huniq.
  pose proof (returns_selection _ _ _ _ _ _ _ _ _ Hd Hs Hc Hsel Hcur) as Hret.
  destruct (scan_res_left current values [] values PyNone PyNone eq_refl)
    as [Hl1 Hl2].
  destruct (scan_res_right current values [] values PyNone PyNone eq_refl)
    as [Hr1 Hr2].
  simpl in Hl1, Hl2, Hr1, Hr2.
  assert ((if bool_decide (1 ≤ i)%nat then values !! (i - 1)%nat else None)
          = Some (scan_res current values 0 values (PyNone, PyNone)).1
          ∨ ((if bool_decide (1 ≤ i)%nat then values !! (i - 1)%nat else None)
             = None
             ∧ (scan_res current values 0 values (PyNone, PyNone)).1 = PyNone))
    as Hleft.
  { case_bool_decide.
    - left. apply Hl1; [lia|done|done|].
      intros j' Hj' Hm. apply Huniq in Hm. lia.
    - right. split; [done|]. apply Hl2.
      intros j _ Hj Hm. apply Huniq in Hm. lia. }
  assert (values !! (i + 1)%nat
          = Some (scan_res current values 0 values (PyNone, PyNone)).2
          ∨ (values !! (i + 1)%nat = None
             ∧ (scan_res current values 0 values (PyNone, PyNone)).2 = PyNone))
    as Hright.
  { destruct (decide (i + 1 < length values)%nat).
    - left. apply Hr1; [lia|done|done|].
      intros j' Hj' _ Hm. apply Huniq in Hm. lia.
    - right. split; [apply lookup_ge_None; lia|]. apply Hr2.
      intros j _ Hj Hm. apply Huniq in Hm. lia. }
  destruct Hleft as [->|[-> Hl]], Hright as [->|[-> Hr]];
    rewrite ?Hl, ?Hr in Hret; exact Hret.
Qed.

End More.

(** ** Equality of values, and updates of dictionaries *)

Lemma py_eq_sym a b : py_eq a b = py_eq b a.
Proof.
  destruct a, b; simpl; try done.
  - apply bool_decide_ext. naive_solver.
  - apply eq_true_iff_eq. rewrite !Qeq_bool_iff. split; by intros ->.
  - apply eq_true_iff_eq. rewrite !Qeq_bool_iff. split; by intros ->.
  - apply eq_true_iff_eq. rewrite !Qeq_bool_iff. split; by intros ->.
  - apply bool_decide_ext. naive_solver.
Qed.

Lemma py_eq_trans a b c :
  py_eq a b = true → py_eq b c = true → py_eq a c = true.
Proof.
  destruct a, b, c; simpl; try done;
    rewrite ?bool_decide_eq_true, ?Qeq_bool_iff; intros H1 H2; subst;
    first [ done | by etrans | apply inject_Z_injective; by etrans ].
Qed.

Lemma py_distinct_lookup l a b x y :
  py_distinct l = true →
  l !! a = Some x → l !! b = Some y → py_eq x y = true → a = b.
Proof.
  revert a b. induction l as [|z l IH]; intros a b; [done|]. simpl.
  intros [Hz Hl]%andb_true_iff Ha Hb Heq.
  rewrite forallb_forall in Hz.
  destruct a as [|a], b as [|b]; simpl in *; simplify_eq.
  - done.
  - apply list_elem_of_lookup_2, list_elem_of_In, Hz in Hb.
    by rewrite Heq in Hb.
  - apply list_elem_of_lookup_2, list_elem_of_In, Hz in Ha.
    rewrite py_eq_sym in Heq. by rewrite Heq in Ha.
  - f_equal. by eapply IH.
Qed.

Lemma dict_set_set d k v v' :
  dict_set k v (dict_set k v' d) = dict_set k v d.
Proof.
  induction d as [|[k0 v0] d IH]; simpl.
  - by rewrite bool_decide_eq_true_2.
  - case_bool_decide as E; simpl; rewrite ?E.
    + by rewrite bool_decide_eq_true_2.
    + rewrite bool_decide_eq_false_2 by done. by rewrite IH.
Qed.

Lemma dict_set_comm d k k' v v' :
  k ≠ k' → k ∈ dict_keys d → k' ∈ dict_keys d →
  dict_set k v (dict_set k' v' d) = dict_set k' v' (dict_set k v d).
Proof.
  intros Hne. induction d as [|[k0 v0] d IH]; [by intros ?%elem_of_nil|].
  simpl. intros Hk Hk'.
  destruct (decide (k = k0)) as [->|Hk0].
  - rewrite (bool_decide_eq_false_2 (k' = k0)) by done.
    rewrite (bool_decide_eq_true_2 (k0 = k0)) by done. simpl.
    rewrite (bool_decide_eq_true_2 (k0 = k0)) by done.
    by rewrite (bool_decide_eq_false_2 (k' = k0)) by done.
  - rewrite (bool_decide_eq_false_2 (k = k0)) by done.
    destruct (decide (k' = k0)) as [->|Hk0'].
    + rewrite (bool_decide_eq_true_2 (k0 = k0)) by done. simpl.
      rewrite (bool_decide_eq_false_2 (k = k0)) by done.
      by rewrite (bool_decide_eq_true_2 (k0 = k0)) by done.
    + rewrite (bool_decide_eq_false_2 (k' = k0)) by done. simpl.
      rewrite (bool_decide_eq_false_2 (k = k0)) by done.
      rewrite (bool_decide_eq_false_2 (k' = k0)) by done.
      f_equal. apply IH.
      * apply elem_of_cons in Hk as [?|?]; [done|done].
      * apply elem_of_cons in Hk' as [?|?]; [done|done].
Qed.

Lemma dict_set_id d k v : dict_get d k = Some v → dict_set k v d = d.
Proof.
  induction d as [|[k0 v0] d IH]; [done|]. simpl.
  case_bool_decide; [by intros [= ->]|]. intros ?. f_equal. by apply IH.
Qed.

(** Writing a value at a key of the configuration changes neither the keys
    nor, for a key other than [model_type], the model and its search space. *)
Lemma configuration_set d k v :
  k ∈ dict_keys d → configuration d → configuration (dict_set k v d).
Proof.
  intros Hk (? & ? & ? & ?). unfold configuration, dict_ok.
  by rewrite !dict_keys_set.
Qed.

Lemma tunable_keys_set d k v :
  k ∈ dict_keys d → tunable_keys (dict_set k v d) = tunable_keys d.
Proof. intros Hk. unfold tunable_keys. by rewrite dict_keys_set. Qed.

Lemma is_baseline_set d k v :
  k ≠ "model_type" → is_baseline (dict_set k v d) = is_baseline d.
Proof. intros Hk. unfold is_baseline. by rewrite dict_get_set_ne. Qed.

Lemma search_space_set registry ml_task d k v :
  k ≠ "model_type" →
  search_space registry ml_task (dict_set k v d)
  = search_space registry ml_task d.
Proof. intros Hk. unfold search_space. by rewrite dict_get_set_ne. Qed.

Section More2.
Context `{NumpyRandom}.
Variable registry : registry_t.

Lemma selection_set d ml_task seed k v :
  k ∈ dict_keys d → k ≠ "model_type" →
  selection registry (dict_set k v d) ml_task seed
  = selection registry d ml_task seed.
Proof.
  intros Hk Hne. unfold selection.
  by rewrite is_baseline_set, search_space_set, tunable_keys_set.
Qed.

Lemma well_formed_set d ml_task k v :
  k ∈ dict_keys d → k ≠ "model_type" →
  well_formed registry ml_task d →
  well_formed registry ml_task (dict_set k v d).
Proof.
  intros Hk Hne [Hc Hreg]. split; [by apply configuration_set|].
  rewrite is_baseline_set by done. intros Hb.
  destruct (Hreg Hb) as (space & Hsp & Hall). exists space.
  rewrite search_space_set, tunable_keys_set by done. done.
Qed.

(** The plan of [get] does not depend on the value stored under a key other
    than [model_type] and the tunable keys. *)
Lemma plan_set_reserved d ml_task seed k v :
  configuration d → k ∈ dict_keys d → k ≠ "model_type" → ¬ tunable k →
  plan registry (dict_set k v d) ml_task seed = plan registry d ml_task seed.
Proof.
  intros Hc Hk Hne Hnt. unfold plan.
  rewrite dict_keys_set, dict_get_set_ne by done.
  rewrite removed_keys_tunable by done.
  destruct (dict_get d "model_type") as [model_type|]; [|done].
  destruct (py_eq model_type (PyStr "Baseline")); [done|].
  destruct (HillClimbing.registry_getitem _ _ _) as [|info]; [done|].
  pose proof (shuffle_perm (mt19937_seed seed) (tunable_keys d)) as Hperm.
  destruct (HillClimbing.select_loop _ _ _) as [|[[key values]|]] eqn:Hsel;
    [done| |done].
  apply select_loop_inr in Hsel as [[=]|(? & ? & [= <- <-] & Hin & _)].
  rewrite Hperm in Hin. apply tunable_keys_get in Hin as [Htun _].
  rewrite dict_get_set_ne; [done|]. by intros ->.
Qed.

(** X7. [get] reads neither [params["seed"]] nor [params["ml_task"]] (nor
    [params["num_class"]]): it works with its arguments [seed] and [ml_task].
    Replacing the value stored under one of these keys changes nothing of
    what the call does, except that the results carry the replaced value. *)
Theorem stored_reserved_value_ignored w w' params params' d ml_task seed k v :
  heap w !! params = Some d →
  heap w' !! params' = Some (dict_set k v d) →
  configuration d →
  k ∈ dict_keys d → k ∈ ["seed"; "ml_task"; "num_class"] →
  outcome registry w' params' ml_task seed
  = match outcome registry w params ml_task seed with
    | inl e => inl e
    | inr (left_, right_) =>
        inr (dict_set k v <$> left_, dict_set k v <$> right_)
    end.
Proof.
  intros Hd Hd' Hc Hk Hres.
  assert (k ≠ "model_type" ∧ ¬ tunable k) as [Hne Hnt].
  { rewrite tunable_ne.
    rewrite !elem_of_cons, elem_of_nil in Hres.
    destruct Hres as [->|[->|[->|[]]]]; (split; [done|]); tauto. }
  destruct (decide (valid_seed seed)) as [Hs|Hs];
    [|by rewrite !outcome_invalid_seed].
  rewrite (outcome_unfold _ _ _ (dict_set k v d)), (outcome_unfold _ _ _ d)
    by done.
  rewrite plan_set_reserved by done.
  destruct (plan registry d ml_task seed) as [[e|[|key l r]] g] eqn:Hplan;
    [done..|].
  assert (key ∈ dict_keys d) as Hkey.
  { apply (plan_step_key registry d ml_task seed key l r). by rewrite Hplan. }
  assert (key ≠ k) as Hkk.
  { intros ->. apply Hnt. revert Hplan. unfold plan.
    rewrite removed_keys_tunable by done. intros Hplan.
    repeat case_match; simplify_eq.
    match goal with
    | Hsel : HillClimbing.select_loop _ _ _ = inr _ |- _ =>
        apply select_loop_inr in Hsel as [[=]|(? & ? & [= <- <-] & Hin & _)]
    end.
    rewrite shuffle_perm in Hin. by apply tunable_keys_get in Hin as [? _]. }
  simpl. unfold neighbour.
  destruct (is_not_None l), (is_not_None r); simpl;
    by rewrite ?(dict_set_comm d key k).
Qed.

End More2.

(** ** Steps back and forth *)

(** The results built from the scan when the current value occurs exactly
    once, at index [i]. *)
Lemma scan_res_unique d key current values i :
  matches values current i →
  (∀ j, matches values current j → j = i) →
  neighbour d key (Some (scan_res current values 0 values (PyNone, PyNone)).1)
  = neighbour d key
      (if bool_decide (1 ≤ i)%nat then values !! (i - 1)%nat else None)
  ∧ neighbour d key
      (Some (scan_res current values 0 values (PyNone, PyNone)).2)
    = neighbour d key (values !! (i + 1)%nat).
Proof.
  intros Hi Huniq.
  destruct (scan_res_left current values [] values PyNone PyNone eq_refl)
    as [Hl1 Hl2].
  destruct (scan_res_right current values [] values PyNone PyNone eq_refl)
    as [Hr1 Hr2].
  simpl in Hl1, Hl2, Hr1, Hr2. split.
  - case_bool_decide.
    + rewrite (Hl1 i); [done|lia|done|done|].
      intros j' Hj' Hm. apply Huniq in Hm. lia.
    + rewrite Hl2; [done|]. intros j _ Hj Hm. apply Huniq in Hm. lia.
  - destruct (decide (i + 1 < length values)%nat).
    + rewrite (Hr1 i); [done|lia|done|done|].
      intros j' Hj' _ Hm. apply Huniq in Hm. lia.
    + rewrite Hr2, (lookup_ge_None_2 values (i + 1)); [done|lia|].
      intros j _ Hj Hm. apply Huniq in Hm. lia.
Qed.

Lemma py_distinct_unique values i v :
  py_distinct values = true → values !! i = Some v →
  matches values v i ∧ ∀ j, matches values v j → j = i.
Proof.
  intros Hdist Hi. split; [exists v; split; [done|apply py_eq_refl]|].
  intros j (x & Hx & Heq). by eapply py_distinct_lookup.
Qed.

Lemma registry_distinct_space registry ml_task d space key values :
  registry_distinct registry →
  search_space registry ml_task d = Some space →
  space !! key = Some values →
  (0 < length values)%nat ∧ py_distinct values = true.
Proof.
  unfold registry_distinct, search_space. intros Hreg Hsp Hkey.
  destruct (dict_get d "model_type") as [[| | |name]|]; try done.
  destruct (registry !! ml_task) as [models|] eqn:Hm; [|done]. simpl in Hsp.
  destruct (models !! name) as [info|] eqn:Hi; [|done]. simpl in Hsp.
  injection Hsp as <-.
  by eapply (Hreg _ _ Hm _ _ Hi).
Qed.

Section More3.
Context `{NumpyRandom}.
Variable registry : registry_t.

(** What [get] returns on a well-formed input: nothing, or the two copies
    built from the scan of the selected key. *)
Lemma returns_inv w params d ml_task seed left_ right_ :
  heap w !! params = Some d →
  well_formed registry ml_task d →
  returns registry w params ml_task seed left_ right_ →
  (left_ = None ∧ right_ = None)
  ∨ ∃ key values current,
      selection registry d ml_task seed = Some (key, values)
      ∧ dict_get d key = Some current
      ∧ left_ = neighbour d key
                  (Some (scan_res current values 0 values (PyNone, PyNone)).1)
      ∧ right_ = neighbour d key
                   (Some (scan_res current values 0 values (PyNone, PyNone)).2).
Proof.
  intros Hd Hwf Hret. unfold returns in Hret.
  destruct (decide (valid_seed seed)) as [Hs|Hs];
    [|by rewrite outcome_invalid_seed in Hret].
  destruct (well_formed_cases registry d ml_task seed Hwf)
    as [Hb|[[Hb Hnil]|(key & values & current & Hsel & Hcur)]].
  - rewrite (outcome_unfold _ _ _ d), plan_baseline in Hret
      by (done || apply Hwf).
    simpl in Hret. injection Hret as <- <-. by left.
  - by rewrite (outcome_unfold _ _ _ d), plan_no_tunable in Hret.
  - right. exists key, values, current.
    pose proof (returns_selection _ _ _ _ _ _ _ _ _ Hd Hs (proj1 Hwf) Hsel
                  Hcur) as Hret'.
    unfold returns in Hret'. rewrite Hret in Hret'.
    by injection Hret' as -> ->.
Qed.

(** X8. With a sequence that repeats no value, a step to the right can be
    taken back: when [get] on a configuration returns a right result, [get]
    on that result (same task, same seed) returns the configuration itself
    as its left result. *)
Theorem step_right_then_left w params d ml_task seed key values current i
    next w2 params2 :
  heap w !! params = Some d → valid_seed seed →
  well_formed registry ml_task d →
  selection registry d ml_task seed = Some (key, values) →
  dict_get d key = Some current →
  py_distinct values = true →
  values !! i = Some current → values !! (i + 1)%nat = Some next →
  is_not_None current = true → is_not_None next = true →
  heap w2 !! params2 = Some (dict_set key next d) →
  (∃ left_, returns registry w params ml_task seed left_
              (Some (dict_set key next d)))
  ∧ ∃ right_, returns registry w2 params2 ml_task seed (Some d) right_.
Proof.
  intros Hd Hs Hwf Hsel Hcur Hdist Hi Hnext Hnc Hnn Hd2.
  apply selection_inv in Hsel as Hinv.
  destruct Hinv as (_ & [Htun _]%tunable_keys_get & _).
  apply dict_get_Some_keys in Hcur as Hkey.
  assert (key ≠ "model_type") as Hne.
  { intros ->. apply Htun. unfold reserved. set_solver. }
  split.
  - destruct (py_distinct_unique values i current Hdist Hi) as [Hm Huniq].
    destruct (scan_res_unique d key current values i Hm Huniq) as [_ Hr].
    eexists.
    pose proof (returns_selection _ _ _ _ _ _ _ _ _ Hd Hs (proj1 Hwf) Hsel
                  Hcur) as Hret.
    rewrite Hr, Hnext in Hret. simpl in Hret. rewrite Hnn in Hret.
    exact Hret.
  - destruct (py_distinct_unique values (i + 1) next Hdist Hnext)
      as [Hm Huniq].
    destruct (scan_res_unique (dict_set key next d) key next values (i + 1)
                Hm Huniq) as [Hl _].
    eexists.
    pose proof (returns_selection registry w2 params2 (dict_set key next d)
                  ml_task seed key values next Hd2 Hs) as Hret.
    rewrite Hl in Hret.
    rewrite bool_decide_eq_true_2 in Hret by lia.
    replace (i + 1 - 1)%nat with i in Hret by lia.
    rewrite Hi in Hret. simpl in Hret. rewrite Hnc in Hret.
    rewrite dict_set_set, (dict_set_id d key current) in Hret by done.
    apply Hret.
    + by apply configuration_set, Hwf.
    + by rewrite selection_set.
    + apply dict_get_set.
Qed.

(** X9. In a registry whose sequences repeat no value, "exactly one key
    differs" holds as the specification states it: every result that [get]
    returns on a well-formed input differs from the input in exactly one
    key, a tunable one. *)
Theorem distinct_single_key_difference w params d ml_task seed left_ right_ :
  registry_distinct registry →
  heap w !! params = Some d →
  well_formed registry ml_task d →
  returns registry w params ml_task seed left_ right_ →
  ∀ d', left_ = Some d' ∨ right_ = Some d' →
    differs_in_one_tunable_key d d'.
Proof.
  intros Hreg Hd Hwf Hret d' Hd'.
  destruct (returns_inv _ _ _ _ _ _ _ Hd Hwf Hret)
    as [[-> ->]|(key & values & current & Hsel & Hcur & -> & ->)];
    [by destruct Hd'|].
  apply selection_inv in Hsel as Hinv.
  destruct Hinv as (_ & [Htun _]%tunable_keys_get & space & Hsp & Hkey & _).
  destruct (registry_distinct_space _ _ _ _ _ _ Hreg Hsp Hkey)
    as [_ Hdist].
  destruct (scan_res_origin current values [] values PyNone PyNone eq_refl)
    as [Hl Hr].
  simpl in Hl, Hr.
  set (lr := scan_res current values 0 values (PyNone, PyNone)) in *.
  assert (∃ x, d' = dict_set key x d ∧ py_eq x current = false)
    as (x & -> & Hx).
  { destruct Hd' as [Hd'|Hd'];
      apply (neighbour_Some d key (Some _)) in Hd'
        as (x & [= <-] & Hx & ->).
    - exists lr.1. split; [done|].
      destruct Hl as [Hl|(j & Hj & (vj & Hvj & Hm) & Hat)];
        [by rewrite Hl in Hx|].
      destruct (py_eq lr.1 current) eqn:Heq; [|done].
      rewrite py_eq_sym in Hm.
      pose proof (py_eq_trans _ _ _ Heq Hm) as Heq'.
      pose proof (py_distinct_lookup _ _ _ _ _ Hdist Hat Hvj Heq'). lia.
    - exists lr.2. split; [done|].
      destruct Hr as [Hr|(j & (vj & Hvj & Hm) & Hat)];
        [by rewrite Hr in Hx|].
      destruct (py_eq lr.2 current) eqn:Heq; [|done].
      rewrite py_eq_sym in Hm.
      pose proof (py_eq_trans _ _ _ Heq Hm) as Heq'.
      pose proof (py_distinct_lookup _ _ _ _ _ Hdist Hat Hvj Heq'). lia. }
  exists key, current, x. split_and!; [done..|apply dict_get_set|done|].
  intros k Hk. by apply dict_get_set_ne.
Qed.

End More3.

(** ** The input and the results on the heap *)

Section Frame.
Context `{NumpyRandom}.
Variable registry : registry_t.

(** C9. [get] never changes the object it is given, nor any other object
    that exists when it is called: after the call the input holds the same
    items, and every result is an object of its own, created by the call,
    that holds the items of the input with the value of one of its keys
    replaced. On a well-formed input that key is the selected key, the same
    for both results, and the value written is the one that precedes (left
    result) or follows (right result) an occurrence of the current value in
    the registered sequence of that key. *)
Theorem input_not_mutated w params d ml_task seed res w' :
  heap w !! params = Some d →
  HillClimbing.get registry params ml_task seed w = (res, w') →
  heap w' !! params = Some d
  ∧ (∀ p d0, heap w !! p = Some d0 → heap w' !! p = Some d0)
  ∧ (∀ params_1 params_2, res = inr (params_1, params_2) →
       (∀ q1 q2, params_1 = Some q1 → params_2 = Some q2 → q1 ≠ q2)
       ∧ ∀ q, params_1 = Some q ∨ params_2 = Some q →
           q ≠ params
           ∧ heap w !! q = None
           ∧ ∃ key v, key ∈ dict_keys d
                      ∧ heap w' !! q = Some (dict_set key v d))
  ∧ (well_formed registry ml_task d →
     ∀ params_1 params_2, res = inr (params_1, params_2) →
       (∀ q, params_1 = Some q →
          ∃ key values current j v,
            selection registry d ml_task seed = Some (key, values)
            ∧ tunable key
            ∧ dict_get d key = Some current
            ∧ (1 ≤ j)%nat ∧ matches values current j
            ∧ values !! (j - 1)%nat = Some v
            ∧ heap w' !! q = Some (dict_set key v d))
       ∧ (∀ q, params_2 = Some q →
            ∃ key values current j v,
              selection registry d ml_task seed = Some (key, values)
              ∧ tunable key
              ∧ dict_get d key = Some current
              ∧ matches values current j
              ∧ values !! (j + 1)%nat = Some v
              ∧ heap w' !! q = Some (dict_set key v d))).
Proof.
  intros Hd Hget.
  destruct (get_frame _ _ _ _ _ _ _ _ Hd Hget) as [Hframe Hres].
  split_and!; [by apply Hframe|done| |].
  - intros p1 p2 Heq. destruct (Hres p1 p2 Heq) as [Hne Hnew].
    split; [done|]. intros q Hq. destruct (Hnew q Hq) as [Hfresh Hcopy].
    split_and!; [|done..]. intros ->. congruence.
  - intros Hwf p1 p2 ->. destruct (Hres p1 p2 eq_refl) as [_ Hnew].
    assert (returns registry w params ml_task seed (read w' p1) (read w' p2))
      as Hret.
    { unfold returns, outcome. by rewrite Hget. }
    assert (∀ q dq, heap w' !! q = Some dq → read w' (Some q) = Some dq)
      as Hread.
    { intros q dq Hq. exact (f_equal (λ o, Some (default [] o)) Hq). }
    destruct (returns_inv _ _ _ _ _ _ _ _ Hd Hwf Hret)
      as [[H1 H2]|(key & values & current & Hsel & Hcur & H1 & H2)].
    { split; intros q ->; done. }
    apply selection_inv in Hsel as Hinv.
    destruct Hinv as (_ & [Htun _]%tunable_keys_get & _).
    destruct (scan_res_origin current values [] values PyNone PyNone eq_refl)
      as [Hl Hr].
    simpl in Hl, Hr. split.
    + intros q ->.
      destruct (Hnew q (or_introl eq_refl)) as (_ & key' & v' & _ & Hq).
      rewrite (Hread _ _ Hq) in H1. symmetry in H1.
      apply (neighbour_Some d key (Some _)) in H1 as (x & [= <-] & Hx & Heq).
      destruct Hl as [Hl|(j & Hj & Hm & Hat)]; [by rewrite Hl in Hx|].
      exists key, values, current, j. eexists.
      split_and!; [done..|]. by rewrite <-Heq.
    + intros q ->.
      destruct (Hnew q (or_intror eq_refl)) as (_ & key' & v' & _ & Hq).
      rewrite (Hread _ _ Hq) in H2. symmetry in H2.
      apply (neighbour_Some d key (Some _)) in H2 as (x & [= <-] & Hx & Heq).
      destruct Hr as [Hr|(j & Hm & Hat)]; [by rewrite Hr in Hx|].
      exists key, values, current, j. eexists.
      split_and!; [done..|]. by rewrite <-Heq.
Qed.

End Frame.


(** The tables of xgboost.py repeat no value, and none is empty. *)
Lemma xgb_registry_distinct : registry_distinct xgb_registry.
Proof. apply (bool_decide_unpack _). vm_compute. exact I. Qed.

(** ** XgbAlgorithm *)

(** X10. A description that [get_params] gives restores the object:
    [set_params(get_params())] changes no attribute. *)
Theorem set_params_get_params (self : XgbAlgorithm.t) :
  XgbAlgorithm.set_params (XgbAlgorithm.get_params self) self = self.
Proof. by destruct self. Qed.

(** X11. After [set_params(json_desc)], [get_params] gives, for each of its
    five keys, the entry of [json_desc] when it has one and the former value
    otherwise; the other keys of [json_desc] are ignored, and
    [learner_params] stays the one that [__init__] built, also when
    [json_desc] brings other [params]. *)
Theorem get_params_set_params (json_desc : XgbAlgorithm.json)
    (self : XgbAlgorithm.t) :
  XgbAlgorithm.get_params (XgbAlgorithm.set_params json_desc self)
  = (λ kv, (kv.1, XgbAlgorithm.json_get json_desc kv.1 kv.2))
      <$> XgbAlgorithm.get_params self
  ∧ XgbAlgorithm.learner (XgbAlgorithm.set_params json_desc self)
    = XgbAlgorithm.learner self.
Proof. by destruct self. Qed.

Lemma learner_params_set_key params key v :
  key ∈ learner_keys → key ∈ dict_keys params →
  XgbAlgorithm.learner_params (dict_set key v params)
  = dict_set key v (XgbAlgorithm.learner_params params).
Proof.
  intros Hk Hin. unfold learner_keys in Hk.
  rewrite !elem_of_cons, elem_of_nil in Hk.
  unfold XgbAlgorithm.learner_params, XgbAlgorithm.dict_get_default.
  rewrite dict_keys_set by done.
  destruct Hk as [->|[->|[->|[->|[->|[->|[->|[->|[->|[->|[]]]]]]]]]]];
    rewrite dict_get_set, !dict_get_set_ne by done;
    by destruct (bool_decide ("num_class" ∈ dict_keys params)).
Qed.

Lemma registry_learner_keys_space registry ml_task d space key values :
  registry_learner_keys registry →
  search_space registry ml_task d = Some space →
  space !! key = Some values →
  key ∈ learner_keys.
Proof.
  unfold registry_learner_keys, search_space. intros Hreg Hsp Hkey.
  destruct (dict_get d "model_type") as [[| | |model]|]; try done.
  destruct (registry !! ml_task) as [models|] eqn:Hm; [|done]. simpl in Hsp.
  destruct (models !! model) as [info|] eqn:Hi; [|done]. simpl in Hsp.
  injection Hsp as <-.
  by eapply (Hreg _ _ Hm _ _ Hi).
Qed.

Section More4.
Context `{NumpyRandom}.
Variable registry : registry_t.

(** X12. A step reaches the learner as one changed parameter: when every
    search-space parameter is one that [learner_params] passes on, the
    learner parameters of a result of [get] are those of the input with the
    new value at the updated key; all others, [seed] and [tree_method]
    among them, are the same. *)
Theorem step_changes_one_learner_param w params d ml_task seed left_ right_ :
  registry_learner_keys registry →
  heap w !! params = Some d →
  well_formed registry ml_task d →
  returns registry w params ml_task seed left_ right_ →
  ∀ d', left_ = Some d' ∨ right_ = Some d' →
    ∃ key v,
      tunable key ∧ d' = dict_set key v d
      ∧ XgbAlgorithm.learner_params d'
        = dict_set key v (XgbAlgorithm.learner_params d).
Proof.
  intros Hreg Hd Hwf Hret d' Hd'.
  destruct (returns_inv _ _ _ _ _ _ _ _ Hd Hwf Hret)
    as [[-> ->]|(key & values & current & Hsel & Hcur & -> & ->)];
    [by destruct Hd'|].
  apply selection_inv in Hsel as Hinv.
  destruct Hinv as (_ & [Htun _]%tunable_keys_get & space & Hsp & Hkey & _).
  pose proof (registry_learner_keys_space _ _ _ _ _ _ Hreg Hsp Hkey) as Hlk.
  apply dict_get_Some_keys in Hcur as Hin.
  destruct Hd' as [Hd'|Hd'];
    apply (neighbour_Some d key (Some _)) in Hd' as (x & [= <-] & Hx & ->);
    eexists key, _; (split_and!; [done|done|by apply learner_params_set_key]).
Qed.

End More4.

Lemma xgb_registry_learner_keys : registry_learner_keys xgb_registry.
Proof. apply (bool_decide_unpack _). vm_compute. exact I. Qed.

(** ** The further properties on concrete inputs *)

Ltac check_configuration := by apply (bool_decide_unpack _); vm_compute.

(** X3, on a configuration whose permutation (seed 7) is [booster],
    [max_depth], [bogus]: [booster] has one value, [max_depth] is updated,
    and [bogus], which no table lists, is never looked up. *)
Lemma first_long_key_is_updated_witness :
  ∃ left_ right_,
    returns xgb_registry (world_of 42 unlisted_cfg) 0%nat "regression" 7
      left_ right_
    ∧ ∀ d', left_ = Some d' ∨ right_ = Some d' →
        ∃ v, v ∈ Xgboost.ints [1; 2; 3; 4]
             ∧ d' = dict_set "max_depth" v unlisted_cfg.
Proof.
  apply (first_long_key_is_updated xgb_registry (world_of 42 unlisted_cfg)
           0%nat unlisted_cfg "regression" 7 Xgboost.xgb_regression_params
           ["booster"] "max_depth" ["bogus"] (Xgboost.ints [1; 2; 3; 4])).
  - reflexivity.
  - unfold valid_seed. lia.
  - check_configuration.
  - reflexivity.
  - reflexivity.
  - reflexivity.
  - intros k Hk. apply list_elem_of_singleton in Hk as ->.
    exists (Xgboost.strs ["gbtree"]). split; [by vm_compute | simpl; lia].
  - by vm_compute.
  - simpl. lia.
Defined.

(** X4, with [bogus] at the head of the permutation (seed 8 reverses it). *)
Lemma unregistered_key_raises_witness :
  raises xgb_registry (world_of 42 unlisted_cfg) 0%nat "regression" 8
    KeyError.
Proof.
  apply (unregistered_key_raises xgb_registry (world_of 42 unlisted_cfg)
           0%nat unlisted_cfg "regression" 8 Xgboost.xgb_regression_params
           [] "bogus" ["max_depth"; "booster"]).
  - reflexivity.
  - unfold valid_seed. lia.
  - check_configuration.
  - reflexivity.
  - reflexivity.
  - reflexivity.
  - by intros k ?%elem_of_nil.
  - by vm_compute.
Defined.

(** X5, on a model that xgboost.py does not register. *)
Lemma unregistered_model_raises_witness :
  raises xgb_registry (world_of 42 unknown_model_cfg) 0%nat "regression" 1
    KeyError.
Proof.
  apply (unregistered_model_raises xgb_registry
           (world_of 42 unknown_model_cfg) 0%nat unknown_model_cfg
           "regression" 1).
  - reflexivity.
  - unfold valid_seed. lia.
  - check_configuration.
  - reflexivity.
  - by vm_compute.
Defined.

(** X6, on the example of the specification. *)
Lemma neighbours_exact_witness :
  returns xgb_registry (world_of 42 example_cfg) 0%nat "regression" 7
    (Some (dict_set "eta" (PyFloat 0.025%Q) example_cfg))
    (Some (dict_set "eta" (PyFloat 0.075%Q) example_cfg)).
Proof.
  apply (neighbours_exact xgb_registry (world_of 42 example_cfg) 0%nat
           example_cfg "regression" 7 "eta"
           (Xgboost.floats
              [0.0025; 0.005; 0.0075; 0.01; 0.025; 0.05; 0.075; 0.1]%Q)
           (PyFloat 0.05%Q) 5).
  - reflexivity.
  - unfold valid_seed. lia.
  - exact example_cfg_well_formed.
  - vm_compute. reflexivity.
  - reflexivity.
  - exists (PyFloat 0.05%Q). split; reflexivity.
  - check_matches (λ j : nat, j = 5%nat).
Defined.

(** X7, on the example of the specification with 99 stored under [seed]. *)
Lemma stored_reserved_value_ignored_witness :
  outcome xgb_registry (world_of 42 (dict_set "seed" (PyInt 99) example_cfg))
    0%nat "regression" 7
  = match outcome xgb_registry (world_of 42 example_cfg) 0%nat "regression"
            7 with
    | inl e => inl e
    | inr (left_, right_) =>
        inr (dict_set "seed" (PyInt 99) <$> left_,
             dict_set "seed" (PyInt 99) <$> right_)
    end.
Proof.
  apply (stored_reserved_value_ignored xgb_registry (world_of 42 example_cfg)
           (world_of 42 (dict_set "seed" (PyInt 99) example_cfg))
           0%nat 0%nat example_cfg "regression" 7 "seed" (PyInt 99)).
  - reflexivity.
  - reflexivity.
  - check_configuration.
  - by apply (bool_decide_unpack _); vm_compute.
  - by apply (bool_decide_unpack _); vm_compute.
Defined.

Lemma py_distinct_eta :
  py_distinct
    (Xgboost.floats [0.0025; 0.005; 0.0075; 0.01; 0.025; 0.05; 0.075; 0.1]%Q)
  = true.
Proof. by vm_compute. Qed.

(** X8, on the example of the specification: from [eta] 0.05 to 0.075 and
    back. *)
Lemma step_right_then_left_witness :
  (∃ left_,
     returns xgb_registry (world_of 42 example_cfg) 0%nat "regression" 7
       left_ (Some (dict_set "eta" (PyFloat 0.075%Q) example_cfg)))
  ∧ ∃ right_,
      returns xgb_registry
        (world_of 42 (dict_set "eta" (PyFloat 0.075%Q) example_cfg)) 0%nat
        "regression" 7 (Some example_cfg) right_.
Proof.
  apply (step_right_then_left xgb_registry (world_of 42 example_cfg) 0%nat
           example_cfg "regression" 7 "eta"
           (Xgboost.floats
              [0.0025; 0.005; 0.0075; 0.01; 0.025; 0.05; 0.075; 0.1]%Q)
           (PyFloat 0.05%Q) 5 (PyFloat 0.075%Q)).
  - reflexivity.
  - unfold valid_seed. lia.
  - exact example_cfg_well_formed.
  - vm_compute. reflexivity.
  - reflexivity.
  - exact py_distinct_eta.
  - reflexivity.
  - reflexivity.
  - reflexivity.
  - reflexivity.
  - reflexivity.
Defined.

(** X9, on the tables of xgboost.py and the example of the specification. *)
Lemma distinct_single_key_difference_witness :
  differs_in_one_tunable_key example_cfg
    (dict_set "eta" (PyFloat 0.025%Q) example_cfg).
Proof.
  apply (distinct_single_key_difference xgb_registry
           (world_of 42 example_cfg) 0%nat example_cfg "regression" 7
           (Some (dict_set "eta" (PyFloat 0.025%Q) example_cfg))
           (Some (dict_set "eta" (PyFloat 0.075%Q) example_cfg))).
  - exact xgb_registry_distinct.
  - reflexivity.
  - exact example_cfg_well_formed.
  - vm_compute. reflexivity.
  - left. reflexivity.
Defined.

(** X12, on the tables of xgboost.py and the example of the specification. *)
Lemma step_changes_one_learner_param_witness :
  ∃ key v,
    tunable key
    ∧ dict_set "eta" (PyFloat 0.025%Q) example_cfg = dict_set key v example_cfg
    ∧ XgbAlgorithm.learner_params
        (dict_set "eta" (PyFloat 0.025%Q) example_cfg)
      = dict_set key v (XgbAlgorithm.learner_params example_cfg).
Proof.
  apply (step_changes_one_learner_param xgb_registry
           (world_of 42 example_cfg) 0%nat example_cfg "regression" 7
           (Some (dict_set "eta" (PyFloat 0.025%Q) example_cfg))
           (Some (dict_set "eta" (PyFloat 0.075%Q) example_cfg))).
  - exact xgb_registry_learner_keys.
  - reflexivity.
  - exact example_cfg_well_formed.
  - vm_compute. reflexivity.
  - left. reflexivity.
Defined.

(** X13, on the example of the specification. *)
Lemma repeated_call_witness :
  outcome xgb_registry
    (HillClimbing.get xgb_registry 0%nat "regression" 7
       (world_of 42 example_cfg)).2 0%nat "regression" 7
  = outcome xgb_registry (world_of 42 example_cfg) 0%nat "regression" 7.
Proof.
  apply (repeated_call xgb_registry (world_of 42 example_cfg) 0%nat
           example_cfg "regression" 7).
  reflexivity.
Defined.

(** C9, on the example of the specification: the results are new objects
    that hold 0.025 and 0.075 at [eta], the selected key, which are the
    values before and after the current value in its sequence. *)
Lemma input_not_mutated_witness :
  let run := HillClimbing.get xgb_registry 0%nat "regression" 7
               (world_of 42 example_cfg) in
  heap run.2 !! 0%nat = Some example_cfg
  ∧ (∀ p d0, heap (world_of 42 example_cfg) !! p = Some d0 →
             heap run.2 !! p = Some d0)
  ∧ (∀ params_1 params_2, run.1 = inr (params_1, params_2) →
       (∀ q1 q2, params_1 = Some q1 → params_2 = Some q2 → q1 ≠ q2)
       ∧ ∀ q, params_1 = Some q ∨ params_2 = Some q →
           q ≠ 0%nat
           ∧ heap (world_of 42 example_cfg) !! q = None
           ∧ ∃ key v, key ∈ dict_keys example_cfg
                      ∧ heap run.2 !! q = Some (dict_set key v example_cfg))
  ∧ (∀ params_1 params_2, run.1 = inr (params_1, params_2) →
       (∀ q, params_1 = Some q →
          ∃ key values current j v,
            selection xgb_registry example_cfg "regression" 7
            = Some (key, values)
            ∧ tunable key
            ∧ dict_get example_cfg key = Some current
            ∧ (1 ≤ j)%nat ∧ matches values current j
            ∧ values !! (j - 1)%nat = Some v
            ∧ heap run.2 !! q = Some (dict_set key v example_cfg))
       ∧ (∀ q, params_2 = Some q →
            ∃ key values current j v,
              selection xgb_registry example_cfg "regression" 7
              = Some (key, values)
              ∧ tunable key
              ∧ dict_get example_cfg key = Some current
              ∧ matches values current j
              ∧ values !! (j + 1)%nat = Some v
              ∧ heap run.2 !! q = Some (dict_set key v example_cfg))).
Proof.
  destruct (input_not_mutated xgb_registry (world_of 42 example_cfg) 0%nat
              example_cfg "regression" 7 _ _ eq_refl
              (surjective_pairing _))
    as (Hinput & Hframe & Hnew & Hselected).
  split_and!; [exact Hinput | exact Hframe | exact Hnew |].
  exact (Hselected example_cfg_well_formed).
Defined.
